(** * MLAutoScheduler: the transform-interpreter pass and the beam search

    A shallow embedding of

    - [src/src/TransformDialectInterpreter.cpp]  (module [TransformDialectInterpreter]),
    - [src/src/TransformInterpreterPassBase.cpp] (module [TransformInterpreterPassBase]),
    - [src/include/BeamSearch.h]                 (module [BeamSearchDecl]),

    and of the search engine that the header declares and the specification
    describes (module [Search]).

    MLIR itself (parser, verifier, transform interpreter, file system) is not
    part of the repository: what the embedded functions ask of it is taken as
    a parameter. Streams are modelled by the list of what is written to
    them, without line breaks. *)

From stdpp Require Import gmap strings list sorting.

Open Scope string_scope.
Open Scope list_scope.
Open Scope nat_scope.
#[local] Set Warnings "-register-all".

(** ** Common MLIR vocabulary *)

(** [mlir::LogicalResult]. *)
Inductive LogicalResult := success | failure.

Definition failed (r : LogicalResult) : bool :=
  match r with failure => true | success => false end.

(** [std::string::empty()], [llvm::StringRef::empty()]. *)
Definition str_empty (s : string) : bool :=
  match s with EmptyString => true | String _ _ => false end.

(** [ListOption<int>::empty()]. *)
Definition list_empty {A} (l : list A) : bool :=
  match l with [] => true | _ :: _ => false end.

(** ** TransformDialectInterpreter.cpp *)
Module TransformDialectInterpreter.

(** An SSA value, by identity. *)
Definition Value := nat.

(** A payload operation: its name, its results and the operations nested in
    its regions, in program order. *)
Inductive Operation :=
  Op (name : string) (results : list Value) (body : list Operation).

Definition getName (op : Operation) : string :=
  match op with Op n _ _ => n end.

Definition getResults (op : Operation) : list Value :=
  match op with Op _ r _ => r end.

(** [Operation::walk] in its default order (post-order): the nested
    operations first, then the operation itself; the list is the sequence of
    callback invocations. *)
Fixpoint walk (op : Operation) : list Operation :=
  match op with
  | Op _ _ body => flat_map walk body ++ [op]
  end.

(** [findOperationsByName]: the walked operations whose name is [name], in
    walk order. *)
Definition findOperationsByName (root : Operation) (name : string)
  : list Operation :=
  List.filter (fun op => bool_decide (getName op = name)) (walk root).

(** [Builder::getI64IntegerAttr]. *)
Inductive Attribute := I64IntegerAttr (v : Z).

(** [transform::MappedValue]: an operation, a parameter or a value. *)
Inductive MappedValue :=
| MappedOperation (op : Operation)
| MappedParam (a : Attribute)
| MappedResult (v : Value).

(** [RaggedArray<T>]: a list of rows of different lengths. *)
Definition RaggedArray (A : Type) := list (list A).

(** [createParameterMapping] pushes one row holding the integers as i64
    attributes. *)
Definition createParameterMapping (values : list Z)
    (result : RaggedArray MappedValue) : RaggedArray MappedValue :=
  result ++ [map (fun v => MappedParam (I64IntegerAttr v)) values].

(** [createOpResultMapping] pushes one row holding the results of every
    operation named [name]. *)
Definition createOpResultMapping (root : Operation) (name : string)
    (extraMapping : RaggedArray MappedValue) : RaggedArray MappedValue :=
  let operations := findOperationsByName root name in
  let results := flat_map getResults operations in
  extraMapping ++ [map MappedResult results].

(** The pass options that [runOnOperation] reads. *)
Record PassOptions := {
  enableExpensiveChecks : bool;
  bindFirstExtraToOps : string;
  bindFirstExtraToParams : list Z;
  bindFirstExtraToResultsOfOps : string;
  bindSecondExtraToOps : string;
  bindSecondExtraToParams : list Z;
  bindSecondExtraToResultsOfOps : string;
  transformFileName : string;
  debugPayloadRootTag : string;
  debugTransformRootTag : string;
  transformLibraryPaths : list string
}.

(** [numberOfSetOptions]: how many of the three options are non-empty. *)
Definition numberOfSetOptions (ops : string) (params : list Z)
    (values : string) : nat :=
  let numSetValues := 0 in
  let numSetValues := numSetValues + Nat.b2n (negb (str_empty ops)) in
  let numSetValues := numSetValues + Nat.b2n (negb (list_empty params)) in
  let numSetValues := numSetValues + Nat.b2n (negb (str_empty values)) in
  numSetValues.

Definition firstSetOptions (o : PassOptions) : nat :=
  numberOfSetOptions (bindFirstExtraToOps o) (bindFirstExtraToParams o)
                     (bindFirstExtraToResultsOfOps o).

Definition secondSetOptions (o : PassOptions) : nat :=
  numberOfSetOptions (bindSecondExtraToOps o) (bindSecondExtraToParams o)
                     (bindSecondExtraToResultsOfOps o).

Definition errFirstMultiple : string :=
  "cannot bind the first extra top-level argument to multiple entities".
Definition errSecondMultiple : string :=
  "cannot bind the second extra top-level argument to multiple entities".
Definition errSecondWithoutFirst : string :=
  "cannot bind the second extra top-level argument without bindings the first".

(** What one call of [runOnOperation] does that its caller can observe: the
    diagnostics emitted, whether [signalPassFailure] was called, and the extra
    mapping the interpreter was run with ([None]: it was not run). *)
Record PassOutcome := {
  diagnostics : list string;
  passFailureSignalled : bool;
  interpreterRun : option (RaggedArray MappedValue)
}.

(** The first extra mapping row: operations, else parameters, else results
    of operations, else nothing. *)
Definition bindFirst (o : PassOptions) (root : Operation)
    (extraMapping : RaggedArray MappedValue) : RaggedArray MappedValue :=
  if negb (str_empty (bindFirstExtraToOps o)) then
    extraMapping ++
      [map MappedOperation (findOperationsByName root (bindFirstExtraToOps o))]
  else if negb (list_empty (bindFirstExtraToParams o)) then
    createParameterMapping (bindFirstExtraToParams o) extraMapping
  else if negb (str_empty (bindFirstExtraToResultsOfOps o)) then
    createOpResultMapping root (bindFirstExtraToResultsOfOps o) extraMapping
  else extraMapping.

Definition bindSecond (o : PassOptions) (root : Operation)
    (extraMapping : RaggedArray MappedValue) : RaggedArray MappedValue :=
  if negb (str_empty (bindSecondExtraToOps o)) then
    extraMapping ++
      [map MappedOperation (findOperationsByName root (bindSecondExtraToOps o))]
  else if negb (list_empty (bindSecondExtraToParams o)) then
    createParameterMapping (bindSecondExtraToParams o) extraMapping
  else if negb (str_empty (bindSecondExtraToResultsOfOps o)) then
    createOpResultMapping root (bindSecondExtraToResultsOfOps o) extraMapping
  else extraMapping.

Section RunOnOperation.

(** [interpreterBaseRunOnOperationImplModified], as [runOnOperation] uses it:
    from the anchor operation, the extra mapping and the options to the
    diagnostics it emits and its result. *)
Variable interpreter :
  Operation -> RaggedArray MappedValue -> PassOptions ->
  list string * LogicalResult.

(** [TransformDialectInterpreterPass::runOnOperation]. *)
Definition runOnOperation (o : PassOptions) (root : Operation) : PassOutcome :=
  if 1 <? firstSetOptions o then
    {| diagnostics := [errFirstMultiple];
       passFailureSignalled := true;
       interpreterRun := None |}
  else if 1 <? secondSetOptions o then
    {| diagnostics := [errSecondMultiple];
       passFailureSignalled := true;
       interpreterRun := None |}
  else
    let emitted :=
      if (firstSetOptions o =? 0) && negb (secondSetOptions o =? 0)
      then [errSecondWithoutFirst] else [] in
    let extraMapping := bindFirst o root [] in
    let extraMapping := bindSecond o root extraMapping in
    let '(diags, result) := interpreter root extraMapping o in
    {| diagnostics := emitted ++ diags;
       passFailureSignalled := failed result;
       interpreterRun := Some extraMapping |}.

End RunOnOperation.

End TransformDialectInterpreter.

(** ** TransformInterpreterPassBase.cpp *)
Module TransformInterpreterPassBase.

Definition kTransformDialectTagAttrName : string := "transform.target_tag".
Definition kTransformDialectTagPayloadRootValue : string := "payload_root".
Definition kTransformDialectTagTransformContainerValue : string :=
  "transform_container".

(** *** The IR as [performOptionalDebugActions] sees it

    Operations are referred to by pointer ([mlir::Operation *]); two pointers
    may be the same operation, so the operations live in a store and
    [setAttr] / [removeAttr] update the store. *)

Definition OpRef := nat.

Inductive Attr :=
| StringAttr (s : string)
| UnitAttr
| OpaqueAttr (id : nat).

(** One operation: its name, its attribute dictionary and its parent. *)
Record OperationData := {
  opName : string;
  attrs : gmap string Attr;
  parentOp : option OpRef
}.

Abbreviation IR := (gmap OpRef OperationData).

(** [Operation::setAttr]: sets or replaces the attribute. *)
Definition setAttr (op : OpRef) (name : string) (value : Attr) (ir : IR) : IR :=
  alter (fun d => {| opName := opName d;
                     attrs := <[name := value]> (attrs d);
                     parentOp := parentOp d |}) op ir.

(** [Operation::removeAttr]: removes the attribute when it is there. *)
Definition removeAttr (op : OpRef) (name : string) (ir : IR) : IR :=
  alter (fun d => {| opName := opName d;
                     attrs := delete name (attrs d);
                     parentOp := parentOp d |}) op ir.

Definition getAttr (op : OpRef) (name : string) (ir : IR) : option Attr :=
  ir !! op ≫= fun d => attrs d !! name.

Definition getParentOp (ir : IR) (op : OpRef) : option OpRef :=
  ir !! op ≫= parentOp.

(** [getRootOperation]: the ancestor without a parent. The loop follows at
    most as many parent links as the store has operations. *)
Fixpoint getRootOperation_from (steps : nat) (ir : IR) (root : OpRef) : OpRef :=
  match steps with
  | 0 => root
  | S k =>
      match getParentOp ir root with
      | Some p => getRootOperation_from k ir p
      | None => root
      end
  end.

Definition getRootOperation (ir : IR) (target : OpRef) : OpRef :=
  getRootOperation_from (size ir) ir target.

(** [Operation::isAncestor]: [other] is [op] or [op] is one of its
    ancestors. *)
Fixpoint isAncestor_from (steps : nat) (ir : IR) (op other : OpRef) : bool :=
  if bool_decide (op = other) then true
  else match steps with
       | 0 => false
       | S k =>
           match getParentOp ir other with
           | Some p => isAncestor_from k ir op p
           | None => false
           end
       end.

Definition isAncestor (ir : IR) (op other : OpRef) : bool :=
  isAncestor_from (size ir) ir op other.

(** A [Pass::Option<std::string>]: its command-line name and its value. *)
Record PassOption := { getArgStr : string; getValue : string }.

Definition opt_empty (o : PassOption) : bool := str_empty (getValue o).

(** What is written to a stream. Printing an operation writes the IR as it
    is at that moment, attributes included. *)
Inductive DebugEvent :=
| DbgText (s : string)
| DbgReproCall (rootOpName passName : string)
    (payloadTagArg payloadTagValue transformTagArg transformTagValue : string)
    (transformLibraryOption binaryName : string)
| DbgPrintOp (op : OpRef) (ir : IR).

(** [printReproCall]. *)
Definition printReproCall (rootOpName passName : string)
    (debugPayloadRootTag debugTransformRootTag transformLibraryFileName
       : PassOption)
    (binaryName : string) : list DebugEvent :=
  let transformLibraryOption :=
    if negb (opt_empty transformLibraryFileName)
    then (" " ++ getArgStr transformLibraryFileName ++ "="
              ++ getValue transformLibraryFileName)%string
    else "" in
  [DbgReproCall rootOpName passName
     (getArgStr debugPayloadRootTag)
     (if opt_empty debugPayloadRootTag
      then kTransformDialectTagPayloadRootValue
      else getValue debugPayloadRootTag)
     (getArgStr debugTransformRootTag)
     (if opt_empty debugTransformRootTag
      then kTransformDialectTagTransformContainerValue
      else getValue debugTransformRootTag)
     transformLibraryOption binaryName].

(** [printModuleForRepro]. *)
Definition printModuleForRepro (ir : IR) (root transform : OpRef)
  : list DebugEvent :=
  DbgPrintOp root ir ::
  (if negb (isAncestor ir root transform) then [DbgPrintOp transform ir]
   else []).

Definition rootName (ir : IR) (root : OpRef) : string :=
  from_option opName "" (ir !! root).

(** What the debug actions depend on outside the IR: the two debug types
    being enabled, the context's threading mode, and whether the temporary
    file can be created ([Some] of its name) and kept. *)
Record DebugEnv := {
  dumpStderr : bool;
  dumpFile : bool;
  isMultithreadingEnabled : bool;
  tempFile : option string;
  tempFileKept : bool
}.

(** Written by one call: to the debug stream, and to the temporary file. *)
Record DebugOutput := {
  dbgs : list DebugEvent;
  fout : list DebugEvent
}.

(** [saveReproToTempFile]. *)
Definition saveReproToTempFile (env : DebugEnv) (ir : IR)
    (target transform : OpRef) (passName : string)
    (debugPayloadRootTag debugTransformRootTag transformLibraryFileName
       : PassOption)
    (binaryName : string) : DebugOutput :=
  let root := getRootOperation ir target in
  match tempFile env with
  | None =>
      {| dbgs := [DbgText "could not open temporary file to save the repro"];
         fout := [] |}
  | Some filename =>
      let written := printModuleForRepro ir root transform in
      if negb (tempFileKept env) then
        {| dbgs :=
             [DbgText "could not preserve the temporary file with the repro"];
           fout := written |}
      else
        {| dbgs :=
             [DbgText "=== Transform Interpreter Repro ==="]
             ++ printReproCall (rootName ir root) passName debugPayloadRootTag
                  debugTransformRootTag transformLibraryFileName binaryName
             ++ [DbgText filename;
                 DbgText "==================================="];
           fout := written |}
  end.

(** [performOptionalDebugActions]: the IR after the call and what was
    written. *)
Definition performOptionalDebugActions (env : DebugEnv) (ir : IR)
    (target transform : OpRef) (passName : string)
    (debugPayloadRootTag debugTransformRootTag transformLibraryFileName
       : PassOption)
    (binaryName : string) : IR * DebugOutput :=
  let hasDebugFlags := dumpStderr env || dumpFile env in
  if negb hasDebugFlags then (ir, {| dbgs := []; fout := [] |})
  else if isMultithreadingEnabled env then
    (ir, {| dbgs :=
              [DbgText "=======================================================";
               DbgText "|      Transform reproducers cannot be produced       |";
               DbgText "|              in multi-threaded mode!                |";
               DbgText "======================================================="];
            fout := [] |})
  else
    let root := getRootOperation ir target in
    (* Add temporary debug / repro attributes. *)
    let ir1 :=
      if opt_empty debugPayloadRootTag
      then setAttr target kTransformDialectTagAttrName
             (StringAttr kTransformDialectTagPayloadRootValue) ir
      else ir in
    let ir2 :=
      if opt_empty debugTransformRootTag
      then setAttr transform kTransformDialectTagAttrName
             (StringAttr kTransformDialectTagTransformContainerValue) ir1
      else ir1 in
    let out1 :=
      if dumpStderr env then
        [DbgText "=== Transform Interpreter Repro ==="; DbgText "cat <<EOF | "]
        ++ printReproCall (rootName ir2 root) passName debugPayloadRootTag
             debugTransformRootTag transformLibraryFileName binaryName
        ++ printModuleForRepro ir2 root transform
        ++ [DbgText "EOF"; DbgText "==================================="]
      else [] in
    let out2 :=
      if dumpFile env then
        saveReproToTempFile env ir2 target transform passName
          debugPayloadRootTag debugTransformRootTag transformLibraryFileName
          binaryName
      else {| dbgs := []; fout := [] |} in
    (* Remove temporary attributes if they were set. *)
    let ir3 :=
      if opt_empty debugPayloadRootTag
      then removeAttr target kTransformDialectTagAttrName ir2
      else ir2 in
    let ir4 :=
      if opt_empty debugTransformRootTag
      then removeAttr transform kTransformDialectTagAttrName ir3
      else ir3 in
    (ir4, {| dbgs := out1 ++ dbgs out2; fout := fout out2 |}).

(** *** Transform modules as [defineDeclaredSymbols] sees them *)

(** A function type, by the printed form of its argument and result
    types. *)
Record FunctionType := { inputs : list string; outputs : list string }.

#[global] Instance FunctionType_eq_dec : EqDecision FunctionType.
Proof. solve_decision. Defined.

(** The two unit attributes an argument may carry:
    [TransformDialect::kArgConsumedAttrName] and [kArgReadOnlyAttrName]. *)
Record ArgAttrs := { consumed : bool; readOnly : bool }.

Definition noArgAttrs : ArgAttrs := {| consumed := false; readOnly := false |}.

(** An operation of a module body: its symbol name when it implements
    [SymbolOpInterface], the number of its regions and whether the first one
    is empty, its function type when it implements [FunctionOpInterface],
    and the attributes of its arguments. *)
Record SymbolOp := {
  symName : option string;
  numRegions : nat;
  region0Empty : bool;
  funcType : option FunctionType;
  argAttrs : list ArgAttrs
}.

(** [mlir::ModuleOp], by the operations of its body. *)
Record ModuleOp := { getBody : list SymbolOp }.

Definition getArgAttr (op : SymbolOp) (i : nat) : ArgAttrs :=
  default noArgAttrs (argAttrs op !! i).

(** [setArgAttr]: the attribute array is created or extended when the
    argument has no entry yet. *)
Definition setArgAttr (op : SymbolOp) (i : nat) (a : ArgAttrs) : SymbolOp :=
  {| symName := symName op;
     numRegions := numRegions op;
     region0Empty := region0Empty op;
     funcType := funcType op;
     argAttrs :=
       <[i := a]> (argAttrs op ++
                   replicate (S i - length (argAttrs op)) noArgAttrs) |}.

(** [getNumRegions() == 1 && !getRegion(0).empty()]. *)
Definition hasDefinition (op : SymbolOp) : bool :=
  (numRegions op =? 1) && negb (region0Empty op).

(** [SymbolTable::lookup]: the position and the operation of the first
    symbol of that name. *)
Fixpoint lookupFrom (k : nat) (ops : list SymbolOp) (name : string)
  : option (nat * SymbolOp) :=
  match ops with
  | [] => None
  | op :: rest =>
      if bool_decide (symName op = Some name) then Some (k, op)
      else lookupFrom (S k) rest name
  end.

Definition symbolTableLookup (definitions : ModuleOp) (name : string)
  : option (nat * SymbolOp) :=
  lookupFrom 0 (getBody definitions) name.

Inductive DefineError :=
| MismatchingSignature (external : FunctionType)
| MismatchingConsumption (argument : nat).

(** The loop over the arguments [i .. i + todo - 1]: the external symbol
    with the annotations it has gained, or the argument whose annotations
    do not match. [setArgAttr] writes to the external symbol in place, so
    on a mismatch the external symbol keeps the annotations it has gained
    on the arguments before. *)
Fixpoint mergeArgAttrs (todo i : nat) (symbolFunc externalSymbolFunc : SymbolOp)
  : (nat * SymbolOp) + SymbolOp :=
  match todo with
  | 0 => inr externalSymbolFunc
  | S todo' =>
      let isExternalConsumed := consumed (getArgAttr externalSymbolFunc i) in
      let isExternalReadonly := readOnly (getArgAttr externalSymbolFunc i) in
      let isConsumed := consumed (getArgAttr symbolFunc i) in
      let isReadonly := readOnly (getArgAttr symbolFunc i) in
      if negb isExternalConsumed && negb isExternalReadonly then
        let ext :=
          if isConsumed then
            setArgAttr externalSymbolFunc i
              {| consumed := true; readOnly := isExternalReadonly |}
          else if isReadonly then
            setArgAttr externalSymbolFunc i
              {| consumed := isExternalConsumed; readOnly := true |}
          else externalSymbolFunc in
        mergeArgAttrs todo' (S i) symbolFunc ext
      else if (isExternalConsumed && negb isConsumed)
              || (isExternalReadonly && negb isReadonly) then
        inl (i, externalSymbolFunc)
      else mergeArgAttrs todo' (S i) symbolFunc externalSymbolFunc
  end.

(** The state of [defineDeclaredSymbols] when it returns: the result, the
    error reported (if any), the block and the definitions module as they
    have become. The external symbol is an operation of the definitions
    module, annotated in place: the module after holds it as annotated,
    also when the argument loop returns with an error. *)
Record DefineOutcome := {
  defineResult : LogicalResult;
  defineError : option DefineError;
  blockAfter : list SymbolOp;
  definitionsAfter : ModuleOp
}.

(** The loop of [defineDeclaredSymbols] over the operations of the block:
    [seen] are the operations already passed (replaced or kept), [rest] the
    ones to come. *)
Fixpoint defineDeclaredSymbols_loop (rest seen : list SymbolOp)
    (definitions : ModuleOp) : DefineOutcome :=
  match rest with
  | [] =>
      {| defineResult := success; defineError := None;
         blockAfter := seen; definitionsAfter := definitions |}
  | op :: rest' =>
      let skip := defineDeclaredSymbols_loop rest' (seen ++ [op]) definitions in
      match symName op with
      | None => skip
      | Some name =>
          if hasDefinition op then skip
          else
            match symbolTableLookup definitions name with
            | None => skip
            | Some (k, externalSymbol) =>
                if negb (numRegions externalSymbol =? 1)
                   || region0Empty externalSymbol then skip
                else
                  match funcType op, funcType externalSymbol with
                  | Some symbolType, Some externalType =>
                      if negb (bool_decide (symbolType = externalType)) then
                        {| defineResult := failure;
                           defineError :=
                             Some (MismatchingSignature externalType);
                           blockAfter := seen ++ op :: rest';
                           definitionsAfter := definitions |}
                      else
                        match mergeArgAttrs (length (inputs symbolType)) 0
                                op externalSymbol with
                        | inl (i, external') =>
                            {| defineResult := failure;
                               defineError := Some (MismatchingConsumption i);
                               blockAfter := seen ++ op :: rest';
                               definitionsAfter :=
                                 {| getBody :=
                                      <[k := external']>
                                        (getBody definitions) |} |}
                        | inr external' =>
                            defineDeclaredSymbols_loop rest'
                              (seen ++ [external'])
                              {| getBody :=
                                   <[k := external']> (getBody definitions) |}
                        end
                  | _, _ => skip
                  end
            end
      end
  end.

(** [defineDeclaredSymbols]. *)
Definition defineDeclaredSymbols (block : list SymbolOp)
    (definitions : ModuleOp) : DefineOutcome :=
  defineDeclaredSymbols_loop block [] definitions.

(** [OwningOpRef<ModuleOp>]: a module or null. *)
Abbreviation OwningModule := (option ModuleOp).

(** [std::shared_ptr<OwningOpRef<ModuleOp>>]: null, or a reference that is
    itself a module or null. *)
Abbreviation SharedModule := (option (option ModuleOp)).

(** [module && *module]. *)
Definition sharedIsSet (m : SharedModule) : bool :=
  match m with Some (Some _) => true | _ => false end.

Definition errFailedToParse : string := "failed to parse transform file".

(** The state of the initialisation when it returns: the result, the
    diagnostics of the file parser, the error of [defineDeclaredSymbols] if
    it reported one, and the two shared modules. *)
Record InitOutcome := {
  initResult : LogicalResult;
  initDiagnostics : list string;
  initDefineError : option DefineError;
  moduleAfter : SharedModule;
  libraryModuleAfter : SharedModule
}.

Section Initialize.

(** MLIR and the file system, as the initialisation uses them: the parser
    on a string and on a file buffer ([None] is the null module it returns
    when the text does not parse), the verifier, and opening a file. *)
Variable parseSourceString : string -> OwningModule.
Variable verify : ModuleOp -> LogicalResult.
Variable MemoryBuffer : Type.
Variable openInputFile : string -> option MemoryBuffer.
Variable parseSourceFile : MemoryBuffer -> OwningModule.

(** [parseTransformModuleFromFile]: the diagnostics, the result and the
    module reference after the call. *)
Definition parseTransformModuleFromFile (transformFileName : string)
    (transformModule : OwningModule)
  : list string * LogicalResult * OwningModule :=
  if str_empty transformFileName then ([], success, transformModule)
  else
    match openInputFile transformFileName with
    | None => ([errFailedToParse], failure, transformModule)
    | Some memoryBuffer => ([], success, parseSourceFile memoryBuffer)
    end.

(** [interpreterBaseInitializeImplModified]. Its first string is the text
    of the transform module, not a file name. The line it prints with the
    time taken is left out. *)
Definition interpreterBaseInitializeImplModified
    (transformFileName transformLibraryFileName : string)
    (module libraryModule : SharedModule) : InitOutcome :=
  let stop diags :=
    {| initResult := failure; initDiagnostics := diags;
       initDefineError := None;
       moduleAfter := module; libraryModuleAfter := libraryModule |} in
  let parsed := parseSourceString transformFileName in
  if match parsed with Some m => failed (verify m) | None => false end
  then stop []
  else
    let '(diags, result, parsedLibrary) :=
      parseTransformModuleFromFile transformLibraryFileName None in
    if failed result then stop diags
    else if match parsedLibrary with
            | Some l => failed (verify l)
            | None => false
            end
    then stop diags
    else
      let module1 : SharedModule :=
        match parsed with
        | Some m => Some (Some m)
        | None => module
        end in
      match parsedLibrary with
      | None =>
          {| initResult := success; initDiagnostics := diags;
             initDefineError := None;
             moduleAfter := module1; libraryModuleAfter := libraryModule |}
      | Some library =>
          match module1 with
          | Some (Some m) =>
              let out := defineDeclaredSymbols (getBody m) library in
              {| initResult := defineResult out;
                 initDiagnostics := diags;
                 initDefineError := defineError out;
                 moduleAfter := Some (Some {| getBody := blockAfter out |});
                 libraryModuleAfter := libraryModule |}
          | _ =>
              {| initResult := success; initDiagnostics := diags;
                 initDefineError := None;
                 moduleAfter := module1;
                 libraryModuleAfter := Some (Some library) |}
          end
      end.

End Initialize.

End TransformInterpreterPassBase.

(** ** BeamSearch.h *)
Module BeamSearchDecl.

(** [mlir::MLIRContext *], by the identity of the context. *)
Definition MLIRContext := nat.

(** The C++ types the declaration uses. *)
Inductive CType :=
| CInt
| CPointer (pointee : string)
| CStdString.

(** An object of [class BeamSearch], by its private members; [int] is
    read as a mathematical integer in the range of [int]. *)
Record BeamSearch := {
  beamSize : Z;
  context : MLIRContext;
  functionName : string
}.

Definition INT_MIN : Z := (- 2 ^ 31)%Z.
Definition INT_MAX : Z := (2 ^ 31 - 1)%Z.

Definition is_int (z : Z) : Prop := (INT_MIN <= z <= INT_MAX)%Z.

(** The private members of [class BeamSearch] as the header declares
    them, in order. *)
Definition privateMembers : list (CType * string) :=
  [ (CInt, "beamSize");
    (CPointer "mlir::MLIRContext", "context");
    (CStdString, "functionName") ].

(** The parameters of the constructor
    [BeamSearch(int beamSize, mlir::MLIRContext *context, std::string functionName)],
    in order. The header declares the constructor only; its body is not
    part of the sources. *)
Definition constructorParameters : list (CType * string) :=
  [ (CInt, "beamSize");
    (CPointer "mlir::MLIRContext", "context");
    (CStdString, "functionName") ].

(** Whether the strategy accepts an entry of that name: its constructor
    has a parameter of that name. *)
Definition accepts (entry : string) : bool :=
  bool_decide (entry ∈ map snd constructorParameters).

(** The configuration in the words of the specification (section 6 and
    section 4.2): the names of its entries. *)
Definition specConfiguration : list string :=
  [ "beamSize"; "maxDepth"; "evaluationBudget"; "perCandidateTimeout";
    "context"; "functionName" ].

(** The claim on the configuration, in the words of the specification:
    every entry of the specification's configuration is accepted by the
    strategy. *)
Definition acceptsSpecConfiguration : Prop :=
  forall entry, entry ∈ specConfiguration -> accepts entry = true.

End BeamSearchDecl.

(** ** The search engine

    [BeamSearch.h] declares [runSearchMethod]; its definition, the node, the
    evaluator and the transformation operators are in files that are not
    part of [src/]. *)
Module Search.

Inductive OperatorKind := Tiling | Interchange | Parallelization | Vectorization.

(** Modelled from the spec: the Transformation Record of section 3, missing
    with [Node.h]: an operator kind and the chosen parameters. *)
Record TransformationRecord (ParameterSet : Type) := {
  operatorKind : OperatorKind;
  parameterSet : ParameterSet
}.
Arguments operatorKind {_} _.
Arguments parameterSet {_} _.

(** Modelled from the spec: the score of section 3, missing with [Node.h]:
    a scalar cost, lower is better, or the reserved value [+∞] for
    "unusable". *)
Inductive Score :=
| Cost (c : Z)
| Unusable.

Definition score_ltb (a b : Score) : bool :=
  match a, b with
  | Cost x, Cost y => (x <? y)%Z
  | Cost _, Unusable => true
  | Unusable, _ => false
  end.

Definition score_leb (a b : Score) : bool := negb (score_ltb b a).

Definition score_eqb (a b : Score) : bool := score_leb a b && score_leb b a.

Definition score_lt (a b : Score) : Prop := score_ltb a b = true.
Definition score_le (a b : Score) : Prop := score_leb a b = true.

(** The lower of two scores, and the lowest score of a list ([+∞] for the
    empty list). *)
Definition score_min (a b : Score) : Score :=
  if score_ltb b a then b else a.

Definition minimumScore (l : list Score) : Score :=
  foldr score_min Unusable l.

(** Modelled from the spec: the Node of section 3, missing with [Node.h]:
    the IR state, the history, the score once computed, and the back
    reference to the parent, which identifies it by its history (its path
    from the root). *)
Record Node (IrState ParameterSet : Type) := {
  irState : IrState;
  history : list (TransformationRecord ParameterSet);
  score : option Score;
  parent : option (list (TransformationRecord ParameterSet))
}.
Arguments irState {_ _} _.
Arguments history {_ _} _.
Arguments score {_ _} _.
Arguments parent {_ _} _.

(** Modelled from the spec: the Transformation Operator of section 4.4,
    missing with [TilingTransformation.h] and the three other operator
    headers. An operator has a parameter domain for each node and answers
    "is parameter set P legal for this node" (section 1); enumeration
    filters the illegal parameter sets out, and [apply] fails only on an
    illegal one. *)
Record TransformationOperator (IrState ParameterSet : Type) := {
  kind : OperatorKind;
  parameterDomain : Node IrState ParameterSet -> list ParameterSet;
  isLegal : Node IrState ParameterSet -> ParameterSet -> bool;
  transform : Node IrState ParameterSet -> ParameterSet -> IrState
}.
Arguments kind {_ _} _.
Arguments parameterDomain {_ _} _ _.
Arguments isLegal {_ _} _ _ _.
Arguments transform {_ _} _ _ _.

(** Modelled from the spec: the configuration of section 6 beside the
    members of [BeamSearch]. *)
Record Limits := {
  maxDepth : Z;
  evaluationBudget : Z;
  perCandidateTimeout : Z
}.

(** A stable insertion sort: of two elements that compare equal, the one
    inserted first comes first. *)
Fixpoint insertBy {A} (le : A -> A -> bool) (x : A) (l : list A) : list A :=
  match l with
  | [] => [x]
  | y :: l' => if le x y then x :: l else y :: insertBy le x l'
  end.

Definition sortBy {A} (le : A -> A -> bool) (l : list A) : list A :=
  foldr (insertBy le) [] l.

(** The elements of a list with their insertion order: the first has the
    number [k]. *)
Fixpoint indexFrom {A} (k : nat) (l : list A) : list (nat * A) :=
  match l with
  | [] => []
  | x :: l' => (k, x) :: indexFrom (S k) l'
  end.

Section Engine.

Context {IrState ParameterSet : Type}.

Abbreviation node := (Node IrState ParameterSet).
Abbreviation operator := (TransformationOperator IrState ParameterSet).

(** Modelled from the spec: [enumerateLegalParameterizations] of section
    4.4. *)
Definition enumerateLegalParameterizations (op : operator) (n : node)
  : list ParameterSet :=
  List.filter (isLegal op n) (parameterDomain op n).

(** Modelled from the spec: [apply] of section 4.4; [None] is its
    failure. *)
Definition apply (op : operator) (n : node) (params : ParameterSet)
  : option IrState :=
  if isLegal op n params then Some (transform op n params) else None.

(** The strategy object, the operators in the order they are consulted,
    the limits, and the evaluator's two stages of section 4.3: compiling and
    running a state under the timeout gives the raw timings of the
    repetitions or fails, and a deterministic statistic reduces the timings
    to one cost. *)
Variable self : BeamSearchDecl.BeamSearch.
Variable operators : list operator.
Variable limits : Limits.
Variable measure : Z -> IrState -> option (list Z).
Variable reduce : list Z -> Z.

(** Modelled from the spec: [evaluate] of section 4.3; [None] is
    [ExecutionFailure]. *)
Definition evaluate (n : node) : option Z :=
  reduce <$> measure (perCandidateTimeout limits) (irState n).

(** The score of a node in comparisons; a node that has none yet compares
    as unusable. *)
Definition scoreOf (n : node) : Score := default Unusable (score n).

(** Modelled from the spec: step 4.2.b; the search turns a failure into the
    sentinel score and keeps the node. *)
Definition evaluateNode (n : node) : node :=
  {| irState := irState n;
     history := history n;
     score := Some (match evaluate n with
                    | Some c => Cost c
                    | None => Unusable
                    end);
     parent := parent n |}.

(** Modelled from the spec: step 4.2.a; a child of [n] by operator [op] and
    parameters [params]. *)
Definition materialize (n : node) (op : operator) (params : ParameterSet)
    (s : IrState) : node :=
  {| irState := s;
     history := history n ++ [{| operatorKind := kind op;
                                 parameterSet := params |}];
     score := None;
     parent := Some (history n) |}.

Definition childrenBy (n : node) (op : operator) : list node :=
  omap (fun params => materialize n op params <$> apply op n params)
       (enumerateLegalParameterizations op n).

(** Modelled from the spec: step 4.2.a; the children of the frontier, in
    insertion order: by frontier node, then by operator, then by the order
    of the enumeration. Every node of the frontier is expanded, as the step
    says, whatever its score. *)
Definition expand (frontier : list node) : list node :=
  flat_map (fun n => flat_map (childrenBy n) operators) frontier.

(** Modelled from the spec: step 4.2.c for one child. *)
Definition updateGlobalBest (best child : node) : node :=
  if score_ltb (scoreOf child) (scoreOf best) then child else best.

(** Modelled from the spec: the order of step 4.2.d; by score, then by
    history length; the sort keeps insertion order among the rest. *)
Definition pruneLe (a b : node) : bool :=
  score_ltb (scoreOf a) (scoreOf b)
  || (score_eqb (scoreOf a) (scoreOf b)
      && (length (history a) <=? length (history b))).

Definition prune (children : list node) : list node :=
  take (Z.to_nat (BeamSearchDecl.beamSize self)) (sortBy pruneLe children).

(** The ranking of step 4.2.d in the words of the specification, on
    children numbered in insertion order: a child comes before another
    when its score is lower; at equal score, when its history is shorter;
    at equal score and length, when it was inserted earlier. *)
Definition rankedBefore (a b : nat * node) : Prop :=
  score_lt (scoreOf a.2) (scoreOf b.2)
  \/ (scoreOf a.2 = scoreOf b.2
      /\ (length (history a.2) < length (history b.2)
          \/ (length (history a.2) = length (history b.2) /\ a.1 < b.1))).

(** The state of a run between two generations. [evaluatedNodes] holds
    every node that was given a score, in the order of evaluation. *)
Record SearchState := {
  frontier : list node;
  globalBest : node;
  evaluatedNodes : list node
}.

Definition budgetLeft (st : SearchState) : nat :=
  Z.to_nat (evaluationBudget limits) - length (evaluatedNodes st).

(** Modelled from the spec: one generation, steps 4.2.a to 4.2.e; [None]
    when the loop ends because the budget is exhausted or because the
    expansion produced no child. The budget is tested before the expansion
    (with a budget of one the root is evaluated and nothing is expanded,
    scenario C of section 8), and at most as many children are evaluated as
    the budget has left (section 5: outstanding evaluations are
    cancelled). *)
Definition generation (st : SearchState) : option SearchState :=
  if budgetLeft st =? 0 then None
  else
    match expand (frontier st) with
    | [] => None
    | children =>
        let scored := map evaluateNode (take (budgetLeft st) children) in
        Some {| frontier := prune scored;
                globalBest := foldl updateGlobalBest (globalBest st) scored;
                evaluatedNodes := evaluatedNodes st ++ scored |}
    end.

(** The loop of step 4.2, run for at most [depthLeft] generations: the
    maximum depth is reached when none is left, so that no node has a
    history longer than the maximum depth (section 8). *)
Fixpoint generations (depthLeft : nat) (st : SearchState) : SearchState :=
  match depthLeft with
  | 0 => st
  | S d =>
      match generation st with
      | None => st
      | Some st' => generations d st'
      end
  end.

(** The states of the loop, from the first to the last. *)
Fixpoint trajectory (depthLeft : nat) (st : SearchState) : list SearchState :=
  st :: match depthLeft with
        | 0 => []
        | S d =>
            match generation st with
            | None => []
            | Some st' => trajectory d st'
            end
        end.

(** Modelled from the spec: step 4.2.1. *)
Definition initialState (root : node) : SearchState :=
  let r := evaluateNode root in
  {| frontier := [r]; globalBest := r; evaluatedNodes := [r] |}.

Definition runSearch (root : node) : SearchState :=
  generations (Z.to_nat (maxDepth limits)) (initialState root).

(** Modelled from the spec: [BeamSearch::runSearchMethod], the algorithm of
    section 4.2, missing with the file that defines the members of
    [BeamSearch]. *)
Definition runSearchMethod (root : node) : node :=
  globalBest (runSearch root).

End Engine.

End Search.

(** ** TransformDialectInterpreter.cpp: the erase-schedule passes *)
Module EraseSchedule.
Import TransformDialectInterpreter.

Section Erase.

(** [isa<transform::TransformOpInterface>(op)]: interfaces are attached to
    the registered operation name. *)
Variable isTransformOp : string -> bool.

(** The pre-order walk of [runOnOperation] below its root: a nested
    operation that is a transform operation is erased with everything
    nested in it and the walk skips it; any other is kept and the walk
    advances into it. *)
Fixpoint eraseNested (op : Operation) : Operation :=
  match op with
  | Op name results body =>
      Op name results
         ((fix visit (ops : list Operation) : list Operation :=
             match ops with
             | [] => []
             | nestedOp :: rest =>
                 if isTransformOp (getName nestedOp) then visit rest
                 else eraseNested nestedOp :: visit rest
             end) body)
  end.

(** [TestTransformDialectEraseSchedulePass::runOnOperation] and
    [TransformDialectEraseSchedulePass::runOnOperation] (the two bodies are
    the same): the operation the pass ran on, or [None] when the walk erased
    that operation itself. *)
Definition runOnOperation (root : Operation) : option Operation :=
  if isTransformOp (getName root) then None else Some (eraseNested root).

End Erase.

(** The operations nested in an operation. *)
Definition getBody (op : Operation) : list Operation :=
  match op with Op _ _ body => body end.

(** [Operation::walk<WalkOrder::PreOrder>]: the operation, then the nested
    operations. *)
Fixpoint walkPreOrder (op : Operation) : list Operation :=
  match op with
  | Op _ _ body => op :: flat_map walkPreOrder body
  end.

End EraseSchedule.

(** ** TransformInterpreterPassBase.cpp: finding the roots *)
Module TransformInterpreterRun.
Import TransformInterpreterPassBase.

(** An operation with what the two searches read: its identity, its name,
    its attribute dictionary and the operations nested in it, in program
    order. *)
Inductive Operation :=
  Op (ref : OpRef) (name : string) (attributes : gmap string Attr)
     (body : list Operation).

Definition getRef (op : Operation) : OpRef :=
  match op with Op r _ _ _ => r end.

Definition getName (op : Operation) : string :=
  match op with Op _ n _ _ => n end.

Definition getAttrs (op : Operation) : gmap string Attr :=
  match op with Op _ _ a _ => a end.

Definition getBody (op : Operation) : list Operation :=
  match op with Op _ _ _ b => b end.

(** [Operation::walk<WalkOrder::PreOrder>] when the callback never skips:
    the sequence of callback invocations. *)
Fixpoint preOrder (op : Operation) : list Operation :=
  match op with
  | Op _ _ _ body => op :: flat_map preOrder body
  end.

(** The diagnostics of the two searches and of the entry-point check. *)
Inductive Diagnostic :=
| MoreThanOneTagged (tagKey tagValue : string) (first other : OpRef)
| CouldNotFindTagged (tagKey tagValue : string)
| MoreThanOneTopLevel (other previous : OpRef)
| CouldNotFindTopLevel (filenameOption : string)
| ExpectedTopLevelTransform (entry : OpRef).

(** The callback's test in [findOpWithTag]:
    [getAttrOfType<StringAttr>(tagKey)] is there and has the value. *)
Definition hasTag (tagKey tagValue : string) (op : Operation) : bool :=
  match getAttrs op !! tagKey with
  | Some (StringAttr value) => bool_decide (value = tagValue)
  | _ => false
  end.

(** The walk of [findOpWithTag] over the operations still to visit:
    [found] so far, and at the end the operation found and, when the walk
    was interrupted, the second operation that carries the tag. *)
Fixpoint findOpWithTag_walk (tagKey tagValue : string)
    (ops : list Operation) (found : option Operation)
  : option Operation * option Operation :=
  match ops with
  | [] => (found, None)
  | op :: rest =>
      if negb (hasTag tagKey tagValue op) then
        findOpWithTag_walk tagKey tagValue rest found
      else
        match found with
        | Some _ => (found, Some op)
        | None => findOpWithTag_walk tagKey tagValue rest (Some op)
        end
  end.

(** [findOpWithTag]: the diagnostics and the operation, [None] for
    [nullptr]. *)
Definition findOpWithTag (root : Operation) (tagKey tagValue : string)
  : list Diagnostic * option Operation :=
  match findOpWithTag_walk tagKey tagValue (preOrder root) None with
  | (Some first, Some other) =>
      ([MoreThanOneTagged tagKey tagValue (getRef first) (getRef other)], None)
  | (None, Some _) => ([], None)
  | (None, None) => ([CouldNotFindTagged tagKey tagValue], None)
  | (Some found, None) => ([], Some found)
  end.

Section Roots.

(** [TransformOpInterface] and [PossibleTopLevelTransformOpTrait] are
    attached to the registered operation name. *)
Variable isTransformOp : string -> bool.
Variable possibleTopLevel : string -> bool.

(** The walk of [findTopLevelTransform] from one operation: the callback
    runs on transform operations only and always skips what is nested in
    them; other operations are walked into. The result is the top-level
    transform found so far and, when the walk was interrupted, the second
    one. *)
Fixpoint findTopLevelTransform_walk (op : Operation)
    (topLevelTransform : option Operation)
  : option Operation * option Operation :=
  match op with
  | Op _ name _ body =>
      if isTransformOp name then
        if negb (possibleTopLevel name) then (topLevelTransform, None)
        else
          match topLevelTransform with
          | None => (Some op, None)
          | Some _ => (topLevelTransform, Some op)
          end
      else
        (fix visit (ops : list Operation) (top : option Operation)
           : option Operation * option Operation :=
           match ops with
           | [] => (top, None)
           | nestedOp :: rest =>
               match findTopLevelTransform_walk nestedOp top with
               | (top', Some other) => (top', Some other)
               | (top', None) => visit rest top'
               end
           end) body topLevelTransform
  end.

(** [findTopLevelTransform]. *)
Definition findTopLevelTransform (root : Operation) (filenameOption : string)
  : list Diagnostic * option Operation :=
  match findTopLevelTransform_walk root None with
  | (Some previous, Some other) =>
      ([MoreThanOneTopLevel (getRef other) (getRef previous)], None)
  | (None, Some _) => ([], None)
  | (None, None) => ([CouldNotFindTopLevel filenameOption], None)
  | (Some topLevelTransform, None) => ([], Some topLevelTransform)
  end.

(** Steps 1 and 2 of [interpreterBaseRunOnOperationImpl] and of
    [interpreterBaseRunOnOperationImplModified] (the two bodies are the
    same), with the check of the entry point that follows them: the
    diagnostics, and the payload root, the transform root and whether the
    transform is shared, or [None] when the function has returned
    failure. *)
Definition selectRoots (target : Operation)
    (sharedTransformModule : option (option Operation))
    (transformFileName debugPayloadRootTag debugTransformRootTag : PassOption)
  : list Diagnostic * option (Operation * Operation * bool) :=
  let '(diags1, payloadRoot) :=
    if negb (opt_empty debugPayloadRootTag) then
      findOpWithTag target kTransformDialectTagAttrName
        (getValue debugPayloadRootTag)
    else ([], Some target) in
  match payloadRoot with
  | None => (diags1, None)
  | Some payloadRoot =>
      let sharedTransform :=
        match sharedTransformModule with
        | Some (Some _) => true
        | _ => false
        end in
      let transformContainer :=
        match sharedTransformModule with
        | Some (Some module) => module
        | _ => target
        end in
      let '(diags2, transformRoot) :=
        if opt_empty debugTransformRootTag then
          findTopLevelTransform transformContainer
            (getArgStr transformFileName)
        else
          findOpWithTag transformContainer kTransformDialectTagAttrName
            (getValue debugTransformRootTag) in
      match transformRoot with
      | None => (diags1 ++ diags2, None)
      | Some transformRoot =>
          if negb (possibleTopLevel (getName transformRoot)) then
            (diags1 ++ diags2
               ++ [ExpectedTopLevelTransform (getRef transformRoot)], None)
          else
            (diags1 ++ diags2,
             Some (payloadRoot, transformRoot, sharedTransform))
      end
  end.

(** Steps 3 to 5 (injecting the library, the debug actions, applying the
    transforms), from the target, the two roots and whether the transform
    is shared to the diagnostics and the result. *)
Variable stepsThreeToFive :
  Operation -> Operation -> Operation -> bool ->
  list Diagnostic * LogicalResult.

(** [interpreterBaseRunOnOperationImplModified] (and
    [interpreterBaseRunOnOperationImpl]). *)
Definition interpreterBaseRunOnOperationImplModified (target : Operation)
    (sharedTransformModule : option (option Operation))
    (transformFileName debugPayloadRootTag debugTransformRootTag : PassOption)
  : list Diagnostic * LogicalResult :=
  match selectRoots target sharedTransformModule transformFileName
          debugPayloadRootTag debugTransformRootTag with
  | (diags, None) => (diags, failure)
  | (diags, Some (payloadRoot, transformRoot, sharedTransform)) =>
      let '(diags', result) :=
        stepsThreeToFive target payloadRoot transformRoot sharedTransform in
      (diags ++ diags', result)
  end.

End Roots.

End TransformInterpreterRun.

(** ** TransformInterpreterPassBase.cpp: [interpreterBaseInitializeImpl] *)
Module TransformInterpreterInit.
Import TransformInterpreterPassBase.

Section Initialize.

Variable verify : ModuleOp -> LogicalResult.
Variable MemoryBuffer : Type.
Variable openInputFile : string -> option MemoryBuffer.
Variable parseSourceFile : MemoryBuffer -> option ModuleOp.

(** [moduleBuilder]: [None] for a null [function_ref]; otherwise, from the
    fresh module the builder inserts into, its optional result and the
    module as it has become. *)
Variable moduleBuilder :
  option (ModuleOp -> option LogicalResult * ModuleOp).

(** [interpreterBaseInitializeImpl]. The name ["__transform"] of the module
    that is created for the builder is not modelled. *)
Definition interpreterBaseInitializeImpl
    (transformFileName transformLibraryFileName : string)
    (module libraryModule : option (option ModuleOp)) : InitOutcome :=
  let stop diags :=
    {| initResult := failure; initDiagnostics := diags;
       initDefineError := None;
       moduleAfter := module; libraryModuleAfter := libraryModule |} in
  let '(diags1, result1, parsed) :=
    parseTransformModuleFromFile MemoryBuffer openInputFile parseSourceFile
      transformFileName None in
  if failed result1 then stop diags1
  else if match parsed with Some m => failed (verify m) | None => false end
  then stop diags1
  else
    let '(diags2, result2, parsedLibrary) :=
      parseTransformModuleFromFile MemoryBuffer openInputFile parseSourceFile
        transformLibraryFileName None in
    let diags := diags1 ++ diags2 in
    if failed result2 then stop diags
    else if match parsedLibrary with
            | Some l => failed (verify l)
            | None => false
            end
    then stop diags
    else
      let built : option (option (option ModuleOp)) :=
        match parsed with
        | Some m => Some (Some (Some m))
        | None =>
            match moduleBuilder with
            | None => Some module
            | Some build =>
                match build {| getBody := [] |} with
                | (None, _) => Some module
                | (Some result, localModule) =>
                    if failed result then None
                    else Some (Some (Some localModule))
                end
            end
        end in
      match built with
      | None => stop diags
      | Some module1 =>
          match parsedLibrary with
          | None =>
              {| initResult := success; initDiagnostics := diags;
                 initDefineError := None;
                 moduleAfter := module1;
                 libraryModuleAfter := libraryModule |}
          | Some library =>
              match module1 with
              | Some (Some m) =>
                  let out := defineDeclaredSymbols (getBody m) library in
                  {| initResult := defineResult out;
                     initDiagnostics := diags;
                     initDefineError := defineError out;
                     moduleAfter := Some (Some {| getBody := blockAfter out |});
                     libraryModuleAfter := libraryModule |}
              | _ =>
                  {| initResult := success; initDiagnostics := diags;
                     initDefineError := None;
                     moduleAfter := module1;
                     libraryModuleAfter := Some (Some library) |}
              end
          end
      end.

End Initialize.

End TransformInterpreterInit.

(** * Properties *)

(** ** [runOnOperation] *)
Module InterpreterPassFacts.
Import TransformDialectInterpreter.

(** Each of the three options adds at most one. *)
Lemma numberOfSetOptions_le ops params values :
  numberOfSetOptions ops params values <= 3.
Proof.
  unfold numberOfSetOptions.
  destruct (str_empty ops), (list_empty params), (str_empty values); simpl; lia.
Qed.

(** No option is set exactly when the count is zero. *)
Lemma numberOfSetOptions_zero ops params values :
  numberOfSetOptions ops params values = 0 <->
  str_empty ops = true /\ list_empty params = true /\ str_empty values = true.
Proof.
  unfold numberOfSetOptions.
  destruct (str_empty ops), (list_empty params), (str_empty values);
    simpl; intuition (lia || congruence).
Qed.

(** With no first binding the first row is not pushed. *)
Lemma bindFirst_none o root extraMapping :
  firstSetOptions o = 0 -> bindFirst o root extraMapping = extraMapping.
Proof.
  intros H. apply numberOfSetOptions_zero in H as (H1 & H2 & H3).
  unfold bindFirst. by rewrite H1, H2, H3.
Qed.

(** With one second binding exactly one row is pushed. *)
Lemma bindSecond_one o root extraMapping :
  secondSetOptions o = 1 ->
  length (bindSecond o root extraMapping) = S (length extraMapping).
Proof.
  unfold secondSetOptions, numberOfSetOptions, bindSecond,
    createParameterMapping, createOpResultMapping.
  destruct (str_empty (bindSecondExtraToOps o)),
    (list_empty (bindSecondExtraToParams o)),
    (str_empty (bindSecondExtraToResultsOfOps o)); simpl; intros ?;
    rewrite ?length_app; simpl; lia.
Qed.

(** The two multiple-binding cases: the error is emitted, pass failure is
    signalled and the interpreter is not run. *)
Lemma multiple_bindings_fail interpreter o root :
  1 < firstSetOptions o \/ 1 < secondSetOptions o ->
  passFailureSignalled (runOnOperation interpreter o root) = true
  /\ interpreterRun (runOnOperation interpreter o root) = None
  /\ (diagnostics (runOnOperation interpreter o root) = [errFirstMultiple]
      \/ diagnostics (runOnOperation interpreter o root) = [errSecondMultiple]).
Proof.
  intros H. unfold runOnOperation.
  destruct (1 <? firstSetOptions o) eqn:E1; [simpl; auto|].
  destruct (1 <? secondSetOptions o) eqn:E2; [simpl; auto|].
  apply Nat.ltb_ge in E1, E2. lia.
Qed.

(** Options with no first binding and two second bindings. *)
Definition twoSecondBindings : PassOptions :=
  {| enableExpensiveChecks := false;
     bindFirstExtraToOps := "";
     bindFirstExtraToParams := [];
     bindFirstExtraToResultsOfOps := "";
     bindSecondExtraToOps := "func.func";
     bindSecondExtraToParams := [1%Z];
     bindSecondExtraToResultsOfOps := "";
     transformFileName := "";
     debugPayloadRootTag := "";
     debugTransformRootTag := "";
     transformLibraryPaths := [] |}.

(** Options with no first binding and one second binding, to parameters. *)
Definition oneSecondBinding : PassOptions :=
  {| enableExpensiveChecks := false;
     bindFirstExtraToOps := "";
     bindFirstExtraToParams := [];
     bindFirstExtraToResultsOfOps := "";
     bindSecondExtraToOps := "";
     bindSecondExtraToParams := [4%Z; 8%Z];
     bindSecondExtraToResultsOfOps := "";
     transformFileName := "";
     debugPayloadRootTag := "";
     debugTransformRootTag := "";
     transformLibraryPaths := [] |}.

Definition payload : Operation :=
  Op "builtin.module" [] [Op "func.func" [] [Op "arith.constant" [0] []]].

(** An interpreter that succeeds silently, and one that fails. *)
Definition quietInterpreter (root : Operation)
    (extraMapping : RaggedArray MappedValue) (o : PassOptions)
  : list string * LogicalResult := ([], success).

Definition failingInterpreter (root : Operation)
    (extraMapping : RaggedArray MappedValue) (o : PassOptions)
  : list string * LogicalResult :=
  (["could not find a nested top-level transform op"], failure).

(** C8, as stated, fails: with every first-extra option empty and two
    second-extra options non-empty (so at least one is), the pass emits the
    multiple-entities error instead, signals pass failure and does not run
    the interpreter. *)
Lemma second_without_first_two_bindings :
  firstSetOptions twoSecondBindings = 0
  /\ secondSetOptions twoSecondBindings <> 0
  /\ runOnOperation quietInterpreter twoSecondBindings payload =
       {| diagnostics := [errSecondMultiple];
          passFailureSignalled := true;
          interpreterRun := None |}
  /\ errSecondWithoutFirst ∉
       diagnostics (runOnOperation quietInterpreter twoSecondBindings payload).
Proof.
  repeat split; [by vm_compute|].
  vm_compute. intros H. apply list_elem_of_In in H. simpl in H.
  destruct H as [H|[]]. discriminate H.
Qed.

(** C8, amended: when every first-extra binding option is empty and exactly
    one second-extra binding option is non-empty, [runOnOperation] emits
    "cannot bind the second extra top-level argument without bindings the
    first" and goes on: it builds an extra mapping of one row, the second
    set, and runs the interpreter with it; pass failure is signalled exactly
    when the interpreter fails. *)
Theorem second_without_first_continues interpreter o root :
  firstSetOptions o = 0 ->
  secondSetOptions o = 1 ->
  let extraMapping := bindSecond o root [] in
  runOnOperation interpreter o root =
    {| diagnostics :=
         errSecondWithoutFirst :: (interpreter root extraMapping o).1;
       passFailureSignalled := failed (interpreter root extraMapping o).2;
       interpreterRun := Some extraMapping |}
  /\ length extraMapping = 1.
Proof.
  intros H1 H2 extraMapping. split.
  - unfold runOnOperation. rewrite H1, H2. simpl.
    rewrite (bindFirst_none _ _ _ H1). fold extraMapping.
    by destruct (interpreter root extraMapping o).
  - subst extraMapping. by rewrite bindSecond_one.
Qed.

(** The amended C8 at [oneSecondBinding] with an interpreter that
    succeeds: the error is emitted, the interpreter runs on the one row of
    parameters, and pass failure is not signalled. *)
Lemma second_without_first_continues_witness :
  runOnOperation quietInterpreter oneSecondBinding payload =
    {| diagnostics := [errSecondWithoutFirst];
       passFailureSignalled := false;
       interpreterRun :=
         Some [[MappedParam (I64IntegerAttr 4); MappedParam (I64IntegerAttr 8)]] |}.
Proof.
  exact (proj1 (second_without_first_continues quietInterpreter
                  oneSecondBinding payload eq_refl eq_refl)).
Defined.

(** With an interpreter that fails, the same options signal pass failure
    after the interpreter has run. *)
Example second_without_first_then_interpreter_fails :
  passFailureSignalled
    (runOnOperation failingInterpreter oneSecondBinding payload) = true
  /\ is_Some (interpreterRun
                (runOnOperation failingInterpreter oneSecondBinding payload)).
Proof. split; [reflexivity | eexists; reflexivity]. Qed.

(** The default walk order is post-order. *)
Example walk_payload :
  map getName (walk payload) = ["arith.constant"; "func.func"; "builtin.module"].
Proof. reflexivity. Qed.

End InterpreterPassFacts.

(** ** The declaration of [BeamSearch] *)
Module BeamSearchDeclFacts.
Import BeamSearchDecl.

(** C5, as stated, fails: the strategy accepts no maximum depth (nor an
    evaluation budget or a timeout). *)
Lemma configuration_lacks_limits : ~ acceptsSpecConfiguration.
Proof.
  intros Hentries. specialize (Hentries "maxDepth").
  assert (Hin : "maxDepth" ∈ specConfiguration).
  { unfold specConfiguration. set_solver. }
  apply Hentries in Hin. vm_compute in Hin. discriminate Hin.
Qed.

(** C5, amended: of the configuration of the specification the
    [BeamSearch] strategy accepts the beam size, the context handle and the
    name of the target function, and nothing else: it accepts no maximum
    depth, no evaluation budget and no per-candidate timeout. The three
    entries are the parameters of its constructor and its private members;
    the beam size is declared as [int], a type that holds every positive
    integer up to [INT_MAX]. *)
Theorem configuration_is_three_members :
  List.filter accepts specConfiguration
  = ["beamSize"; "context"; "functionName"]
  /\ List.filter (fun entry => negb (accepts entry)) specConfiguration
     = ["maxDepth"; "evaluationBudget"; "perCandidateTimeout"]
  /\ map snd constructorParameters = List.filter accepts specConfiguration
  /\ privateMembers = constructorParameters
  /\ (forall type, (type, "beamSize") ∈ constructorParameters <-> type = CInt)
  /\ (forall b : Z, (0 < b <= INT_MAX)%Z -> is_int b).
Proof.
  split; [by vm_compute|]. split; [by vm_compute|].
  split; [by vm_compute|]. split; [reflexivity|]. split.
  - intros type. unfold constructorParameters. split.
    + intros Hin. apply list_elem_of_In in Hin. simpl in Hin.
      destruct Hin as [Hin|[Hin|[Hin|[]]]]; congruence.
    + intros ->. set_solver.
  - intros b Hb. unfold is_int, INT_MIN, INT_MAX in *. lia.
Qed.

(** The amended C5 at the beam size 2. *)
Lemma configuration_is_three_members_witness :
  (0 < 2 <= INT_MAX)%Z /\ is_int 2.
Proof.
  assert (Hrange : (0 < 2 <= INT_MAX)%Z) by (unfold INT_MAX; lia).
  split; [exact Hrange|].
  exact (proj2 (proj2 (proj2 (proj2 (proj2 configuration_is_three_members))))
           2%Z Hrange).
Defined.

End BeamSearchDeclFacts.

(** ** [performOptionalDebugActions] *)
Module DebugActionsFacts.
Import TransformInterpreterPassBase.

Abbreviation tag := kTransformDialectTagAttrName.

(** An operation's data without the tag attribute. *)
Definition withoutTag (d : OperationData) : OperationData :=
  {| opName := opName d; attrs := delete tag (attrs d);
     parentOp := parentOp d |}.

(** Whether the call sets (and removes) the tag on operation [j]. *)
Definition touched (target transform : OpRef) (p t : PassOption) (j : OpRef)
  : bool :=
  (bool_decide (target = j) && opt_empty p)
  || (bool_decide (transform = j) && opt_empty t).

Lemma lookup_setAttr op name value (ir : IR) j :
  setAttr op name value ir !! j =
    if decide (op = j)
    then (fun d => {| opName := opName d;
                      attrs := <[name := value]> (attrs d);
                      parentOp := parentOp d |}) <$> ir !! j
    else ir !! j.
Proof. unfold setAttr. rewrite lookup_alter. by case_decide; subst. Qed.

Lemma lookup_removeAttr op name (ir : IR) j :
  removeAttr op name ir !! j =
    if decide (op = j)
    then (fun d => {| opName := opName d;
                      attrs := delete name (attrs d);
                      parentOp := parentOp d |}) <$> ir !! j
    else ir !! j.
Proof. unfold removeAttr. rewrite lookup_alter. by case_decide; subst. Qed.

Lemma withoutTag_fresh d : attrs d !! tag = None -> withoutTag d = d.
Proof.
  intros H. destruct d as [n a p]. unfold withoutTag. simpl in *.
  by rewrite delete_id.
Qed.

(** On the dump path the net effect of the call on the IR is to delete the
    tag attribute on the operations it touched, and nothing else. *)
Lemma debug_actions_lookup env (ir : IR) target transform passName p t l
    binaryName j :
  dumpStderr env || dumpFile env = true ->
  isMultithreadingEnabled env = false ->
  (performOptionalDebugActions env ir target transform passName p t l
     binaryName).1 !! j =
    (if touched target transform p t j then withoutTag else id) <$> ir !! j.
Proof.
  intros Hflags Hthreads. unfold performOptionalDebugActions, touched.
  rewrite Hflags, Hthreads. simpl.
  destruct (opt_empty p), (opt_empty t); simpl;
    rewrite ?lookup_removeAttr, ?lookup_setAttr;
    rewrite ?andb_true_r, ?andb_false_r, ?orb_false_r;
    repeat case_decide; repeat case_bool_decide; try congruence; simpl;
    destruct (ir !! j) as [[n a q]|]; simpl; try reflexivity;
    unfold withoutTag; simpl; do 2 f_equal;
    rewrite ?delete_insert_eq, ?insert_insert_eq, ?delete_insert_eq;
    try reflexivity; apply delete_id, lookup_delete_eq.
Qed.

(** A module holding a transform sequence; neither carries the tag. *)
Definition cleanIR : IR :=
  {[ 0 := {| opName := "builtin.module";
             attrs := {[ "sym_name" := StringAttr "kernel" ]};
             parentOp := None |};
     1 := {| opName := "transform.sequence"; attrs := ∅;
             parentOp := Some 0 |} ]}.

(** The same module when it already carries a tag of the user's. *)
Definition taggedIR : IR :=
  {[ 0 := {| opName := "builtin.module";
             attrs := {[ tag := StringAttr "mine" ]};
             parentOp := None |};
     1 := {| opName := "transform.sequence"; attrs := ∅;
             parentOp := Some 0 |} ]}.

Definition dumpToStderr : DebugEnv :=
  {| dumpStderr := true; dumpFile := false; isMultithreadingEnabled := false;
     tempFile := None; tempFileKept := false |}.

Definition noPayloadTag : PassOption :=
  {| getArgStr := "debug-payload-root-tag"; getValue := "" |}.
Definition noTransformTag : PassOption :=
  {| getArgStr := "debug-transform-root-tag"; getValue := "" |}.
Definition noLibrary : PassOption :=
  {| getArgStr := "transform-library-paths"; getValue := "" |}.

(** C10, as stated, fails: on the dump path with both debug tags empty, a
    target that carries a "transform.target_tag" attribute before the call
    has lost it after the call, so its attribute dictionary has changed. *)
Lemma debug_actions_drop_existing_tag :
  dumpStderr dumpToStderr || dumpFile dumpToStderr = true
  /\ isMultithreadingEnabled dumpToStderr = false
  /\ getAttr 0 tag taggedIR = Some (StringAttr "mine")
  /\ getAttr 0 tag
       (performOptionalDebugActions dumpToStderr taggedIR 0 1
          "test-transform-dialect-interpreter" noPayloadTag noTransformTag
          noLibrary "mlir-opt").1 = None
  /\ (performOptionalDebugActions dumpToStderr taggedIR 0 1
        "test-transform-dialect-interpreter" noPayloadTag noTransformTag
        noLibrary "mlir-opt").1 ≠ taggedIR.
Proof.
  repeat split; try reflexivity.
  intros H. apply (f_equal (getAttr 0 tag)) in H. vm_compute in H.
  discriminate H.
Qed.

(** C10, amended: on the dump path every "transform.target_tag" attribute
    the call attaches is removed before it returns: the tag is absent from
    the target when [debugPayloadRootTag] is empty and from the transform
    root when [debugTransformRootTag] is empty; no other operation and no
    other attribute is changed; and the attribute dictionaries of the target
    and of the transform root are unchanged by the call provided neither
    operation, where the call tags it, carried a "transform.target_tag"
    attribute before (an attribute of that name already there is removed
    with the temporary one). *)
Theorem debug_actions_restore_attributes env (ir : IR) target transform
    passName p t l binaryName :
  dumpStderr env || dumpFile env = true ->
  isMultithreadingEnabled env = false ->
  let ir' :=
    (performOptionalDebugActions env ir target transform passName p t l
       binaryName).1 in
  (opt_empty p = true -> getAttr target tag ir' = None)
  /\ (opt_empty t = true -> getAttr transform tag ir' = None)
  /\ (forall j, touched target transform p t j = false -> ir' !! j = ir !! j)
  /\ (forall j name, name ≠ tag -> getAttr j name ir' = getAttr j name ir)
  /\ ((opt_empty p = true -> getAttr target tag ir = None) ->
      (opt_empty t = true -> getAttr transform tag ir = None) ->
      ir' = ir).
Proof.
  intros Hflags Hthreads ir'.
  assert (Hlookup : forall j,
             ir' !! j =
             (if touched target transform p t j then withoutTag else id)
               <$> ir !! j).
  { intros j. by apply debug_actions_lookup. }
  repeat split.
  - intros Hp. unfold getAttr. rewrite Hlookup. unfold touched.
    rewrite Hp, bool_decide_eq_true_2 by done. simpl.
    destruct (ir !! target); simpl; [apply lookup_delete_eq | done].
  - intros Ht. unfold getAttr. rewrite Hlookup. unfold touched.
    rewrite Ht, (bool_decide_eq_true_2 (transform = transform)) by done.
    rewrite orb_true_r.
    destruct (ir !! transform); simpl; [apply lookup_delete_eq | done].
  - intros j Hj. rewrite Hlookup, Hj. by destruct (ir !! j).
  - intros j name Hname. unfold getAttr. rewrite Hlookup.
    destruct (ir !! j) as [d|]; [|done].
    destruct (touched target transform p t j); simpl; [|done].
    by apply lookup_delete_ne.
  - intros Hp Ht. apply map_eq. intros j. rewrite Hlookup.
    destruct (touched target transform p t j) eqn:Htouched;
      [|by destruct (ir !! j)].
    destruct (ir !! j) as [d|] eqn:Hd; [|done]. simpl. f_equal.
    apply withoutTag_fresh. unfold touched in Htouched.
    apply orb_true_iff in Htouched as [H|H];
      apply andb_true_iff in H as [Heq Hempty];
      apply bool_decide_eq_true in Heq; subst j.
    + specialize (Hp Hempty). unfold getAttr in Hp. by rewrite Hd in Hp.
    + specialize (Ht Hempty). unfold getAttr in Ht. by rewrite Hd in Ht.
Qed.

(** The amended C10 on [cleanIR]: the call leaves the IR as it was. *)
Lemma debug_actions_restore_attributes_witness :
  (performOptionalDebugActions dumpToStderr cleanIR 0 1
     "test-transform-dialect-interpreter" noPayloadTag noTransformTag
     noLibrary "mlir-opt").1 = cleanIR.
Proof.
  refine (proj2 (proj2 (proj2 (proj2
    (debug_actions_restore_attributes dumpToStderr cleanIR 0 1
       "test-transform-dialect-interpreter" noPayloadTag noTransformTag
       noLibrary "mlir-opt" eq_refl eq_refl)))) _ _);
    intros _; reflexivity.
Defined.

(** While the dump is written the tags are attached: the IR that is printed
    carries them on the target and on the transform root. *)
Example debug_actions_print_tagged :
  exists tagged,
    DbgPrintOp 0 tagged ∈
      dbgs (performOptionalDebugActions dumpToStderr cleanIR 0 1
              "test-transform-dialect-interpreter" noPayloadTag
              noTransformTag noLibrary "mlir-opt").2
    /\ getAttr 0 tag tagged = Some (StringAttr "payload_root")
    /\ getAttr 1 tag tagged = Some (StringAttr "transform_container").
Proof.
  eexists. split; [|split].
  - vm_compute. do 3 apply list_elem_of_further. apply list_elem_of_here.
  - reflexivity.
  - reflexivity.
Qed.

(** The target and the transform root may be one operation: the tag is set
    twice and removed twice. *)
Example debug_actions_same_operation :
  (performOptionalDebugActions dumpToStderr cleanIR 1 1
     "test-transform-dialect-interpreter" noPayloadTag noTransformTag
     noLibrary "mlir-opt").1 = cleanIR.
Proof. by vm_compute. Qed.

End DebugActionsFacts.

(** ** [interpreterBaseInitializeImplModified] *)
Module InitializeFacts.
Import TransformInterpreterPassBase.

Section Causes.

Variable parseSourceString : string -> option ModuleOp.
Variable verify : ModuleOp -> LogicalResult.
Variable MemoryBuffer : Type.
Variable openInputFile : string -> option MemoryBuffer.
Variable parseSourceFile : MemoryBuffer -> option ModuleOp.

(** The library file, if any, can be opened, and what is parsed from it
    verifies. *)
Definition libraryAcceptable (transformLibraryFileName : string) : Prop :=
  str_empty transformLibraryFileName = true
  \/ exists buffer,
       openInputFile transformLibraryFileName = Some buffer
       /\ forall library, parseSourceFile buffer = Some library ->
                          verify library = success.

(** The four ways the initialisation fails. *)
Definition transformFailsVerification (text : string) : Prop :=
  exists m, parseSourceString text = Some m /\ verify m = failure.

Definition libraryFailsToOpen (transformLibraryFileName : string) : Prop :=
  str_empty transformLibraryFileName = false
  /\ openInputFile transformLibraryFileName = None.

Definition libraryFailsVerification (transformLibraryFileName : string)
  : Prop :=
  exists buffer library,
    str_empty transformLibraryFileName = false
    /\ openInputFile transformLibraryFileName = Some buffer
    /\ parseSourceFile buffer = Some library
    /\ verify library = failure.

Definition definitionsFailToMerge (text transformLibraryFileName : string)
    (module : option (option ModuleOp)) : Prop :=
  exists m buffer library,
    (parseSourceString text = Some m
     \/ (parseSourceString text = None /\ module = Some (Some m)))
    /\ openInputFile transformLibraryFileName = Some buffer
    /\ parseSourceFile buffer = Some library
    /\ defineResult (defineDeclaredSymbols (getBody m) library) = failure.

(** C9, amended: [interpreterBaseInitializeImplModified] returns success
    when parsing the transform string produces no module, leaving the shared
    transform module unset, provided the library file (if any) opens and
    what is parsed from it verifies; failure is returned only when a parsed
    module fails verification, the library file cannot be opened or fails
    verification, or the definitions of the library cannot be merged into
    the transform module ([defineDeclaredSymbols] fails). *)
Theorem initialize_failure_causes text transformLibraryFileName
    (module libraryModule : option (option ModuleOp)) :
  let out :=
    interpreterBaseInitializeImplModified parseSourceString verify
      MemoryBuffer openInputFile parseSourceFile
      text transformLibraryFileName module libraryModule in
  (parseSourceString text = None ->
   sharedIsSet module = false ->
   libraryAcceptable transformLibraryFileName ->
   initResult out = success /\ moduleAfter out = module)
  /\ (initResult out = failure ->
      transformFailsVerification text
      \/ libraryFailsToOpen transformLibraryFileName
      \/ libraryFailsVerification transformLibraryFileName
      \/ definitionsFailToMerge text transformLibraryFileName module).
Proof.
  intros out. subst out.
  unfold interpreterBaseInitializeImplModified, parseTransformModuleFromFile,
    libraryAcceptable, transformFailsVerification, libraryFailsToOpen,
    libraryFailsVerification, definitionsFailToMerge.
  split.
  - intros Hparsed Hunset Hlib. rewrite Hparsed.
    destruct Hlib as [Hempty | (buffer & Hopen & Hverify)].
    + rewrite Hempty. simpl. done.
    + rewrite Hopen.
      destruct (str_empty transformLibraryFileName); simpl; [done|].
      destruct (parseSourceFile buffer) as [library|] eqn:Hlibrary;
        simpl; [|done].
      rewrite (Hverify library eq_refl). simpl.
      by destruct module as [[m|]|].
  - destruct (parseSourceString text) as [m|] eqn:Hparsed.
    + destruct (verify m) eqn:Hm; simpl; [|by eauto].
      destruct (str_empty transformLibraryFileName) eqn:Hempty; simpl;
        [done|].
      destruct (openInputFile transformLibraryFileName) as [buffer|]
        eqn:Hopen; simpl; [|by eauto].
      destruct (parseSourceFile buffer) as [library|] eqn:Hlibrary;
        simpl; [|done].
      destruct (verify library) eqn:Hl; simpl.
      * intros Hdefine. do 3 right. exists m, buffer, library. naive_solver.
      * intros _. right. right. left. exists buffer, library. naive_solver.
    + simpl.
      destruct (str_empty transformLibraryFileName) eqn:Hempty; simpl;
        [done|].
      destruct (openInputFile transformLibraryFileName) as [buffer|]
        eqn:Hopen; simpl; [|by eauto].
      destruct (parseSourceFile buffer) as [library|] eqn:Hlibrary;
        simpl; [|done].
      destruct (verify library) eqn:Hl; simpl.
      * destruct module as [[m|]|]; simpl; [|done..].
        intros Hdefine. do 3 right. exists m, buffer, library. naive_solver.
      * intros _. right. right. left. exists buffer, library. naive_solver.
Qed.

End Causes.

(** *** A concrete parser, verifier and file system *)

Definition anyOp : string := "!transform.any_op".

(** A transform module that declares the named sequence [@tile] with one
    argument, to be defined by a library. *)
Definition declaresTile : ModuleOp :=
  {| getBody :=
       [ {| symName := Some "tile"; numRegions := 1; region0Empty := true;
            funcType := Some {| inputs := [anyOp]; outputs := [] |};
            argAttrs := [ {| consumed := false; readOnly := true |} ] |} ] |}.

(** A library that defines [@tile] with two arguments. *)
Definition definesTileBinary : ModuleOp :=
  {| getBody :=
       [ {| symName := Some "tile"; numRegions := 1; region0Empty := false;
            funcType := Some {| inputs := [anyOp; anyOp]; outputs := [] |};
            argAttrs := [] |} ] |}.

(** A library that defines [@tile] with one argument and no annotation. *)
Definition definesTile : ModuleOp :=
  {| getBody :=
       [ {| symName := Some "tile"; numRegions := 1; region0Empty := false;
            funcType := Some {| inputs := [anyOp]; outputs := [] |};
            argAttrs := [] |} ] |}.

(** A library that defines [@tile] and consumes its argument. *)
Definition definesTileConsuming : ModuleOp :=
  {| getBody :=
       [ {| symName := Some "tile"; numRegions := 1; region0Empty := false;
            funcType := Some {| inputs := [anyOp]; outputs := [] |};
            argAttrs := [ {| consumed := true; readOnly := false |} ] |} ] |}.

(** The parser knows one text; every other text does not parse. *)
Definition parseString (text : string) : option ModuleOp :=
  if bool_decide (text = "module { transform.named_sequence @tile }")
  then Some declaresTile else None.

Definition verifyAll (m : ModuleOp) : LogicalResult := success.

(** The file system holds three library files, named by their contents. *)
Definition openFile (name : string) : option ModuleOp :=
  if bool_decide (name = "binary.mlir") then Some definesTileBinary
  else if bool_decide (name = "unary.mlir") then Some definesTile
  else if bool_decide (name = "consuming.mlir") then Some definesTileConsuming
  else None.

Definition parseFile (buffer : ModuleOp) : option ModuleOp := Some buffer.

Definition initialize :=
  interpreterBaseInitializeImplModified parseString verifyAll ModuleOp
    openFile parseFile.

(** C9, as stated, fails in its account of the failures: here the
    transform string parses and verifies, the library file parses and
    verifies, and the initialisation still returns failure, because the
    library defines the declared symbol with another signature. *)
Lemma initialize_fails_on_signature_mismatch :
  parseString "module { transform.named_sequence @tile }" = Some declaresTile
  /\ verifyAll declaresTile = success
  /\ openFile "binary.mlir" = Some definesTileBinary
  /\ parseFile definesTileBinary = Some definesTileBinary
  /\ verifyAll definesTileBinary = success
  /\ initResult (initialize "module { transform.named_sequence @tile }"
                   "binary.mlir" None None) = failure.
Proof. repeat split. Qed.

(** The amended C9 on a string that does not parse, without a library:
    success, and the shared module stays unset. *)
Lemma initialize_failure_causes_witness :
  initResult (initialize "tile everything" "" None None) = success
  /\ moduleAfter (initialize "tile everything" "" None None) = None.
Proof.
  refine (proj1 (initialize_failure_causes parseString verifyAll ModuleOp
                   openFile parseFile "tile everything" "" None None) _ _ _).
  - reflexivity.
  - reflexivity.
  - left. reflexivity.
Defined.

(** A string that does not parse, with a library that verifies: success,
    and the library becomes the library module. *)
Example initialize_unparsed_with_library :
  initialize "tile everything" "unary.mlir" None None =
    {| initResult := success; initDiagnostics := [];
       initDefineError := None;
       moduleAfter := None;
       libraryModuleAfter := Some (Some definesTile) |}.
Proof. reflexivity. Qed.

(** A library file that cannot be opened is reported. *)
Example initialize_library_missing :
  initialize "tile everything" "absent.mlir" None None =
    {| initResult := failure; initDiagnostics := [errFailedToParse];
       initDefineError := None;
       moduleAfter := None; libraryModuleAfter := None |}.
Proof. reflexivity. Qed.

(** A matching definition replaces the declaration and takes over its
    annotation. *)
Example define_replaces_declaration :
  defineDeclaredSymbols (getBody declaresTile) definesTile =
    {| defineResult := success; defineError := None;
       blockAfter :=
         [ {| symName := Some "tile"; numRegions := 1; region0Empty := false;
              funcType := Some {| inputs := [anyOp]; outputs := [] |};
              argAttrs := [ {| consumed := false; readOnly := true |} ] |} ];
       definitionsAfter :=
         {| getBody :=
              [ {| symName := Some "tile"; numRegions := 1;
                   region0Empty := false;
                   funcType := Some {| inputs := [anyOp]; outputs := [] |};
                   argAttrs := [ {| consumed := false; readOnly := true |} ]
                |} ] |} |}.
Proof. reflexivity. Qed.

(** A definition that consumes an argument the declaration only reads is
    refused. *)
Example define_refuses_consumption :
  defineError (defineDeclaredSymbols (getBody declaresTile)
                 definesTileConsuming) = Some (MismatchingConsumption 0)
  /\ defineError (defineDeclaredSymbols (getBody declaresTile)
                    definesTileBinary)
     = Some (MismatchingSignature {| inputs := [anyOp; anyOp]; outputs := [] |}).
Proof. split; reflexivity. Qed.

End InitializeFacts.

(** ** The search engine *)
Module SearchFacts.
Import Search.

(** *** The order on scores *)

Ltac solve_score :=
  unfold score_le, score_lt, score_min, score_eqb, score_leb, score_ltb in *;
  repeat match goal with s : Score |- _ => destruct s end;
  simpl in *;
  repeat match goal with
         | |- context [(?x <? ?y)%Z] => destruct (Z.ltb_spec x y)
         | H : context [(?x <? ?y)%Z] |- _ => destruct (Z.ltb_spec x y)
         end;
  simpl in *; try congruence; try lia; try (f_equal; lia).

Lemma score_le_refl a : score_le a a.
Proof. solve_score. Qed.

Lemma score_le_trans a b c : score_le a b -> score_le b c -> score_le a c.
Proof. intros. solve_score. Qed.

Lemma score_le_antisym a b : score_le a b -> score_le b a -> a = b.
Proof. intros. solve_score. Qed.

Lemma score_le_total a b : score_le a b \/ score_le b a.
Proof. solve_score; auto. Qed.

Lemma score_lt_le a b : score_lt a b -> score_le a b.
Proof. intros. solve_score. Qed.

Lemma score_lt_le_trans a b c : score_lt a b -> score_le b c -> score_lt a c.
Proof. intros. solve_score. Qed.

Lemma score_not_lt_le a b : score_ltb a b = false -> score_le b a.
Proof. intros. solve_score. Qed.

Lemma score_le_not_lt a b : score_le a b -> score_ltb b a = false.
Proof. intros. solve_score. Qed.

Lemma score_le_unusable a : score_le a Unusable.
Proof. solve_score. Qed.

(** Only a cost is lower than another score. *)
Lemma score_lt_cost a b : score_lt a b -> exists c, a = Cost c.
Proof. intros. destruct a; [eauto | solve_score]. Qed.

Lemma score_min_le_l a b : score_le (score_min a b) a.
Proof. solve_score. Qed.

Lemma score_min_le_r a b : score_le (score_min a b) b.
Proof. solve_score. Qed.

(** The lowest score of a list is a lower bound of the list. *)
Lemma minimumScore_le l x : x ∈ l -> score_le (minimumScore l) x.
Proof.
  induction 1 as [x l | x y l _ IH]; simpl.
  - apply score_min_le_l.
  - eapply score_le_trans; [apply score_min_le_r | exact IH].
Qed.

(** It is the greatest lower bound. *)
Lemma minimumScore_greatest l x :
  (forall y, y ∈ l -> score_le x y) -> score_le x (minimumScore l).
Proof.
  induction l as [|y l IH]; intros H; simpl.
  - apply score_le_unusable.
  - assert (score_le x y) by (apply H; left).
    assert (score_le x (minimumScore l)) by (apply IH; intros; apply H; by right).
    unfold score_min. by destruct (score_ltb _ _).
Qed.

(** A lower bound that is in the list is the lowest score. *)
Lemma minimumScore_unique l x :
  x ∈ l -> (forall y, y ∈ l -> score_le x y) -> minimumScore l = x.
Proof.
  intros Hin Hle. apply score_le_antisym.
  - by apply minimumScore_le.
  - by apply minimumScore_greatest.
Qed.

(** *** The sort *)

Lemma insertBy_length {A} (le : A -> A -> bool) x l :
  length (insertBy le x l) = S (length l).
Proof.
  induction l as [|y l IH]; simpl; [done|].
  destruct (le x y); simpl; by rewrite ?IH.
Qed.

Lemma sortBy_length {A} (le : A -> A -> bool) l :
  length (sortBy le l) = length l.
Proof.
  induction l as [|x l IH]; simpl; [done|].
  by rewrite insertBy_length, IH.
Qed.

Lemma insertBy_Permutation {A} (le : A -> A -> bool) x l :
  insertBy le x l ≡ₚ x :: l.
Proof.
  induction l as [|y l IH]; simpl; [done|].
  destruct (le x y); [done|]. rewrite IH. apply Permutation_swap.
Qed.

(** Sorting keeps every element: nothing is discarded before the cut. *)
Lemma sortBy_Permutation {A} (le : A -> A -> bool) l : sortBy le l ≡ₚ l.
Proof.
  induction l as [|x l IH]; simpl; [done|].
  by rewrite insertBy_Permutation, IH.
Qed.

Lemma insertBy_elem_of {A} (le : A -> A -> bool) x y l :
  y ∈ insertBy le x l <-> y = x \/ y ∈ l.
Proof. by rewrite insertBy_Permutation, elem_of_cons. Qed.

(** Inserting into a list that is sorted by a relation [R] gives a list
    sorted by [R], when the test puts [x] before an element only if [R]
    does, and [R] puts the elements it passes before [x]. *)
Lemma insertBy_StronglySorted {A} (R : relation A) (le : A -> A -> bool) x l :
  (forall y, y ∈ l -> le x y = true -> R x y) ->
  (forall y, y ∈ l -> le x y = false -> R y x) ->
  (forall y z, y ∈ l -> z ∈ l -> R x y -> R y z -> R x z) ->
  StronglySorted R l -> StronglySorted R (insertBy le x l).
Proof.
  intros Hbefore Hafter Htrans Hsorted.
  induction Hsorted as [|y l Hsorted IH Hy]; simpl.
  { repeat constructor. }
  destruct (le x y) eqn:Ele.
  - constructor; [by constructor|].
    assert (Hxy : R x y) by (apply Hbefore; [left | done]).
    constructor; [done|]. apply Forall_forall. intros z Hz.
    apply (Htrans y z); [left | by right | done |].
    by eapply Forall_forall in Hy.
  - constructor.
    + apply IH.
      * intros z Hz. apply Hbefore. by right.
      * intros z Hz. apply Hafter. by right.
      * intros z1 z2 Hz1 Hz2. apply Htrans; by right.
    + apply Forall_forall. intros z [-> | Hz]%insertBy_elem_of.
      * apply Hafter; [left | done].
      * by eapply Forall_forall in Hy.
Qed.

(** Sorting by a test that is total and transitive sorts. *)
Lemma sortBy_StronglySorted {A} (le : A -> A -> bool) l :
  (forall a b, le a b = true \/ le b a = true) ->
  (forall a b c, le a b = true -> le b c = true -> le a c = true) ->
  StronglySorted (fun a b => le a b = true) (sortBy le l).
Proof.
  intros Htotal Htrans. induction l as [|x l IH]; simpl; [constructor|].
  apply insertBy_StronglySorted; [done| |by eauto|done].
  intros y _ Hxy. destruct (Htotal x y); congruence.
Qed.

(** Sorting pairs by their second components is sorting the second
    components. *)
Lemma insertBy_snd {A B} (le : B -> B -> bool) (x : A * B) l :
  (insertBy (fun a b => le a.2 b.2) x l).*2 = insertBy le x.2 (l.*2).
Proof.
  induction l as [|y l IH]; csimpl; [done|].
  destruct (le x.2 y.2); csimpl; by rewrite ?IH.
Qed.

Lemma sortBy_snd {A B} (le : B -> B -> bool) (l : list (A * B)) :
  (sortBy (fun a b => le a.2 b.2) l).*2 = sortBy le (l.*2).
Proof.
  induction l as [|x l IH]; csimpl; [done|]. by rewrite insertBy_snd, IH.
Qed.

Lemma indexFrom_snd {A} k (l : list A) : (indexFrom k l).*2 = l.
Proof.
  revert k. induction l as [|x l IH]; intros k; csimpl; [done|].
  by rewrite IH.
Qed.

Lemma indexFrom_ge {A} k (l : list A) p : p ∈ indexFrom k l -> k <= p.1.
Proof.
  revert k. induction l as [|x l IH]; intros k; simpl.
  { by intros ?%elem_of_nil. }
  intros [-> | Hp%IH]%elem_of_cons; simpl; lia.
Qed.

(** *** The ranking of the children *)
Section Ranking.

Context {IrState ParameterSet : Type}.

#[local] Abbreviation node := (Node IrState ParameterSet).

Lemma score_eqb_eq a b : score_eqb a b = true <-> a = b.
Proof.
  destruct a as [x|], b as [y|];
    unfold score_eqb, score_leb, score_ltb; simpl;
    try (split; congruence).
  destruct (Z.ltb_spec x y), (Z.ltb_spec y x); simpl;
    split; try congruence; try lia.
  - intros [= ->]. lia.
  - intros [= ->]. lia.
  - intros _. f_equal. lia.
Qed.

Lemma score_lt_irrefl a : ~ score_lt a a.
Proof.
  destruct a as [x|]; unfold score_lt; simpl; [|done].
  destruct (Z.ltb_spec x x); [lia | done].
Qed.

Lemma score_lt_trans a b c : score_lt a b -> score_lt b c -> score_lt a c.
Proof.
  destruct a as [x|], b as [y|], c as [z|]; unfold score_lt; simpl;
    try done.
  rewrite !Z.ltb_lt. lia.
Qed.

Lemma score_lt_trichotomy a b : score_lt a b \/ a = b \/ score_lt b a.
Proof.
  destruct a as [x|], b as [y|]; unfold score_lt; simpl; auto.
  destruct (Z.ltb_spec x y); [auto|].
  destruct (Z.ltb_spec y x); [auto|]. right; left. f_equal. lia.
Qed.

(** The test of the sort, read as an order on score and length of
    history. *)
Lemma pruneLe_true (a b : node) :
  pruneLe a b = true
  <-> score_lt (scoreOf a) (scoreOf b)
      \/ (scoreOf a = scoreOf b
          /\ length (history a) <= length (history b)).
Proof.
  unfold pruneLe. rewrite orb_true_iff, andb_true_iff, score_eqb_eq.
  by rewrite Nat.leb_le.
Qed.

Lemma pruneLe_false (a b : node) :
  pruneLe a b = false
  <-> score_lt (scoreOf b) (scoreOf a)
      \/ (scoreOf a = scoreOf b
          /\ length (history b) < length (history a)).
Proof.
  rewrite <- not_true_iff_false, pruneLe_true. split.
  - intros Hnot.
    destruct (score_lt_trichotomy (scoreOf a) (scoreOf b)) as [H|[H|H]].
    + destruct Hnot. by left.
    + right. split; [done|].
      destruct (decide (length (history a) <= length (history b)));
        [destruct Hnot; by right | lia].
    + by left.
  - intros [Hlt | [Heq Hlen]] [Hlt' | [Heq' Hlen']].
    + by eapply score_lt_irrefl, score_lt_trans.
    + rewrite Heq' in Hlt. by eapply score_lt_irrefl.
    + rewrite Heq in Hlt'. by eapply score_lt_irrefl.
    + lia.
Qed.

Lemma pruneLe_total (a b : node) : pruneLe a b = true \/ pruneLe b a = true.
Proof.
  destruct (pruneLe a b) eqn:E; [by left|]. right.
  apply pruneLe_false in E. apply pruneLe_true.
  destruct E as [Hlt | [Heq Hlen]]; [by left|]. right. split; [done|lia].
Qed.

Lemma pruneLe_trans (a b c : node) :
  pruneLe a b = true -> pruneLe b c = true -> pruneLe a c = true.
Proof.
  rewrite !pruneLe_true.
  intros [Hab | [Hab Hlab]] [Hbc | [Hbc Hlbc]].
  - left. by eapply score_lt_trans.
  - left. by rewrite <- Hbc.
  - left. by rewrite Hab.
  - right. split; [congruence|lia].
Qed.

Lemma rankedBefore_trans (a b c : nat * node) :
  rankedBefore a b -> rankedBefore b c -> rankedBefore a c.
Proof.
  unfold rankedBefore.
  intros [Hab | [Hab Hlab]] [Hbc | [Hbc Hlbc]].
  - left. by eapply score_lt_trans.
  - left. by rewrite <- Hbc.
  - left. by rewrite Hab.
  - right. split; [congruence|lia].
Qed.

(** No two children rank before one another: the ranking leaves no
    tie. *)
Lemma rankedBefore_asym (a b : nat * node) :
  rankedBefore a b -> rankedBefore b a -> False.
Proof.
  unfold rankedBefore.
  intros [Hab | [Hab Hlab]] [Hba | [Hba Hlba]].
  - by eapply score_lt_irrefl, score_lt_trans.
  - rewrite Hba in Hab. by eapply score_lt_irrefl.
  - rewrite Hab in Hba. by eapply score_lt_irrefl.
  - lia.
Qed.

(** The stable sort of the numbered children ranks them as the
    specification says. *)
Lemma sortBy_ranked k (children : list node) :
  StronglySorted rankedBefore
    (sortBy (fun a b => pruneLe a.2 b.2) (indexFrom k children)).
Proof.
  revert k. induction children as [|x l IH]; intros k; simpl; [constructor|].
  assert (Hlater : forall p,
             p ∈ sortBy (fun a b : nat * node => pruneLe a.2 b.2)
                   (indexFrom (S k) l) -> k < p.1).
  { intros p Hp. rewrite sortBy_Permutation in Hp.
    apply indexFrom_ge in Hp. lia. }
  apply insertBy_StronglySorted; [| | |apply IH].
  - intros p Hp%Hlater [Hlt | [Heq Hlen]]%pruneLe_true;
      unfold rankedBefore; simpl in *.
    + by left.
    + right. split; [done|]. lia.
  - intros p _ [Hlt | [Heq Hlen]]%pruneLe_false;
      unfold rankedBefore; simpl in *.
    + by left.
    + right. split; [done|]. by left.
  - intros p q _ _. apply rankedBefore_trans.
Qed.

(** The ranking of the children exists, is unique, and the stable sort
    computes it. *)
Lemma sortBy_pruneLe_ranking (children : list node) :
  let ranked :=
    sortBy (fun a b => pruneLe a.2 b.2) (indexFrom 0 children) in
  ranked ≡ₚ indexFrom 0 children
  /\ StronglySorted rankedBefore ranked
  /\ (forall ranked',
        ranked' ≡ₚ indexFrom 0 children ->
        StronglySorted rankedBefore ranked' -> ranked' = ranked)
  /\ sortBy pruneLe children = ranked.*2.
Proof.
  intros ranked. split; [apply sortBy_Permutation|].
  split; [apply sortBy_ranked|]. split.
  - intros ranked' Hperm Hsorted.
    apply (StronglySorted_unique_strong rankedBefore); try done.
    + intros a b _ _ Hab Hba. by destruct (rankedBefore_asym a b).
    + apply sortBy_ranked.
    + rewrite Hperm. symmetry. apply sortBy_Permutation.
  - subst ranked. by rewrite sortBy_snd, indexFrom_snd.
Qed.

End Ranking.

(** *** One run *)
Section Run.

Context {IrState ParameterSet : Type}.

Variable self : BeamSearchDecl.BeamSearch.
Variable operators : list (TransformationOperator IrState ParameterSet).
Variable limits : Limits.
Variable measure : Z -> IrState -> option (list Z).
Variable reduce : list Z -> Z.

#[local] Abbreviation node := (Node IrState ParameterSet).
#[local] Abbreviation state := (@SearchState IrState ParameterSet).
#[local] Abbreviation scored := (evaluateNode limits measure reduce).
#[local] Abbreviation step := (generation self operators limits measure reduce).
#[local] Abbreviation loop := (generations self operators limits measure reduce).
#[local] Abbreviation states :=
  (trajectory self operators limits measure reduce).
#[local] Abbreviation run := (runSearch self operators limits measure reduce).
#[local] Abbreviation search :=
  (runSearchMethod self operators limits measure reduce).

(** **** Updating the global best *)

Lemma updateGlobalBest_le_best (best child : node) :
  score_le (scoreOf (updateGlobalBest best child)) (scoreOf best).
Proof.
  unfold updateGlobalBest.
  destruct (score_ltb (scoreOf child) (scoreOf best)) eqn:E.
  - by apply score_lt_le.
  - apply score_le_refl.
Qed.

Lemma updateGlobalBest_le_child (best child : node) :
  score_le (scoreOf (updateGlobalBest best child)) (scoreOf child).
Proof.
  unfold updateGlobalBest.
  destruct (score_ltb (scoreOf child) (scoreOf best)) eqn:E.
  - apply score_le_refl.
  - by apply score_not_lt_le.
Qed.

Lemma foldl_update_le_best (children : list node) best :
  score_le (scoreOf (foldl updateGlobalBest best children)) (scoreOf best).
Proof.
  revert best. induction children as [|c l IH]; intros best; simpl.
  - apply score_le_refl.
  - eapply score_le_trans; [apply IH | apply updateGlobalBest_le_best].
Qed.

Lemma foldl_update_le_child (children : list node) best c :
  c ∈ children ->
  score_le (scoreOf (foldl updateGlobalBest best children)) (scoreOf c).
Proof.
  intros Hc. revert best.
  induction Hc as [c l | c d l _ IH]; intros best; simpl.
  - eapply score_le_trans;
      [apply foldl_update_le_best | apply updateGlobalBest_le_child].
  - apply IH.
Qed.

(** The slot keeps its node, or holds a child that scored strictly lower
    than the node it held. *)
Lemma foldl_update_cases (children : list node) best :
  foldl updateGlobalBest best children = best
  \/ (foldl updateGlobalBest best children ∈ children
      /\ score_lt (scoreOf (foldl updateGlobalBest best children))
                  (scoreOf best)).
Proof.
  revert best. induction children as [|c l IH]; intros best; simpl; [by left|].
  destruct (IH (updateGlobalBest best c)) as [Heq | [Hin Hlt]].
  - rewrite Heq. unfold updateGlobalBest.
    destruct (score_ltb (scoreOf c) (scoreOf best)) eqn:E; [|by left].
    right. split; [left | exact E].
  - right. split; [by right|].
    eapply score_lt_le_trans; [exact Hlt | apply updateGlobalBest_le_best].
Qed.

(** **** One generation *)

Lemma generation_Some (st st' : state) :
  step st = Some st' ->
  let children :=
    map scored (take (budgetLeft limits st) (expand operators (frontier st))) in
  frontier st' = prune self children
  /\ globalBest st' = foldl updateGlobalBest (globalBest st) children
  /\ evaluatedNodes st' = evaluatedNodes st ++ children.
Proof.
  unfold generation. destruct (budgetLeft limits st =? 0); [done|].
  destruct (expand operators (frontier st)) as [|c l]; [done|].
  intros [= <-]. by simpl.
Qed.

Lemma prune_length (children : list node) :
  length (prune self children) <= Z.to_nat (BeamSearchDecl.beamSize self).
Proof. unfold prune. rewrite length_take. lia. Qed.

(** **** The loop *)

Lemma generations_invariant (P : state -> Prop) depthLeft st :
  P st ->
  (forall s s', P s -> step s = Some s' -> P s') ->
  P (loop depthLeft st).
Proof.
  intros Hst Hstep. revert st Hst.
  induction depthLeft as [|d IH]; intros st Hst; simpl; [done|].
  destruct (step st) as [st'|] eqn:E; [|done].
  apply IH. by eapply Hstep.
Qed.

Lemma trajectory_invariant (P : state -> Prop) depthLeft st s :
  P st ->
  (forall s s', P s -> step s = Some s' -> P s') ->
  s ∈ states depthLeft st -> P s.
Proof.
  intros Hst Hstep. revert st Hst.
  induction depthLeft as [|d IH]; intros st Hst; simpl.
  - intros ->%list_elem_of_singleton. done.
  - destruct (step st) as [st'|] eqn:E.
    + intros [->|Hin]%elem_of_cons; [done|].
      eapply IH; [|exact Hin]. by eapply Hstep.
    + intros ->%list_elem_of_singleton. done.
Qed.

(** The loop ends in the last state of its trajectory. *)
Lemma trajectory_last depthLeft st :
  last (states depthLeft st) = Some (loop depthLeft st).
Proof.
  revert st. induction depthLeft as [|d IH]; intros st; simpl; [done|].
  destruct (step st) as [st'|] eqn:E; [|done].
  rewrite <- IH. by destruct d.
Qed.

Lemma trajectory_head depthLeft st : states depthLeft st !! 0 = Some st.
Proof. by destruct depthLeft. Qed.

(** A state after the first is the successor of a state of the
    trajectory. *)
Lemma trajectory_successor depthLeft st i s' :
  states depthLeft st !! S i = Some s' ->
  exists s, states depthLeft st !! i = Some s /\ step s = Some s'.
Proof.
  revert st i. induction depthLeft as [|d IH]; intros st i; simpl; [done|].
  destruct (step st) as [st'|] eqn:E; [|done].
  destruct i as [|i]; simpl.
  - rewrite trajectory_head. intros [= <-]. eauto.
  - intros H. apply IH in H as (s & Hs & Hstep). eauto.
Qed.

(** **** The invariant of the global best *)

(** With [r] the evaluated root: the root and the global best have been
    evaluated, no evaluated node scores lower than the global best, and the
    global best is the root or scores strictly lower than the root. *)
Definition bestInvariant (r : node) (st : state) : Prop :=
  r ∈ evaluatedNodes st
  /\ globalBest st ∈ evaluatedNodes st
  /\ (forall n, n ∈ evaluatedNodes st ->
                score_le (scoreOf (globalBest st)) (scoreOf n))
  /\ (globalBest st = r \/ score_lt (scoreOf (globalBest st)) (scoreOf r)).

Lemma bestInvariant_initial root :
  bestInvariant (scored root) (initialState limits measure reduce root).
Proof.
  unfold bestInvariant, initialState. simpl. repeat split.
  - apply list_elem_of_singleton. done.
  - apply list_elem_of_singleton. done.
  - intros n ->%list_elem_of_singleton. apply score_le_refl.
  - by left.
Qed.

Lemma generation_best_le (s s' : state) :
  step s = Some s' ->
  score_le (scoreOf (globalBest s')) (scoreOf (globalBest s)).
Proof.
  intros (_ & -> & _)%generation_Some. apply foldl_update_le_best.
Qed.

Lemma bestInvariant_step r (s s' : state) :
  bestInvariant r s -> step s = Some s' -> bestInvariant r s'.
Proof.
  intros (Hr & Hbest & Hlow & Hroot) (_ & Hb & He)%generation_Some.
  unfold bestInvariant. rewrite Hb, He.
  set (children := map _ _) in *.
  destruct (foldl_update_cases children (globalBest s)) as [Heq | [Hin Hlt]].
  - rewrite Heq. repeat split.
    + apply elem_of_app. by left.
    + apply elem_of_app. by left.
    + intros n [Hn|Hn]%elem_of_app; [by apply Hlow|].
      rewrite <- Heq. by apply foldl_update_le_child.
    + exact Hroot.
  - repeat split.
    + apply elem_of_app. by left.
    + apply elem_of_app. by right.
    + intros n [Hn|Hn]%elem_of_app.
      * eapply score_le_trans; [apply foldl_update_le_best | by apply Hlow].
      * by apply foldl_update_le_child.
    + right. destruct Hroot as [<- | Hroot]; [done|].
      eapply score_lt_le_trans; [exact Hlt | by apply score_lt_le].
Qed.

Lemma bestInvariant_run root : bestInvariant (scored root) (run root).
Proof.
  unfold runSearch. apply generations_invariant.
  - apply bestInvariant_initial.
  - intros s s'. apply bestInvariant_step.
Qed.

(** The log of evaluated nodes only grows. *)
Lemma trajectory_evaluated depthLeft st s n :
  s ∈ states depthLeft st ->
  n ∈ evaluatedNodes s -> n ∈ evaluatedNodes (loop depthLeft st).
Proof.
  revert st s. induction depthLeft as [|d IH]; intros st s; simpl.
  - by intros ->%list_elem_of_singleton.
  - destruct (step st) as [st'|] eqn:E.
    + intros [->|Hin]%elem_of_cons Hn; [|by eapply IH].
      apply (IH st' st'); [destruct d; left|].
      apply generation_Some in E as (_ & _ & ->).
      apply elem_of_app. by left.
    + by intros ->%list_elem_of_singleton.
Qed.

Lemma trajectory_monotone depthLeft st i j (si sj : state) :
  i <= j ->
  states depthLeft st !! i = Some si ->
  states depthLeft st !! j = Some sj ->
  score_le (scoreOf (globalBest sj)) (scoreOf (globalBest si)).
Proof.
  revert st i j si sj.
  induction depthLeft as [|d IH]; intros st i j si sj Hij; simpl.
  - destruct i, j; simpl; try done. intros [= <-] [= <-]. apply score_le_refl.
  - destruct (step st) as [st'|] eqn:E.
    + destruct i as [|i], j as [|j]; simpl; try lia.
      * intros [= <-] [= <-]. apply score_le_refl.
      * intros [= <-] Hj.
        eapply score_le_trans; [|by apply generation_best_le].
        eapply (IH st' 0 j st' sj); [lia | apply trajectory_head | exact Hj].
      * apply IH. lia.
    + destruct i, j; simpl; try done. intros [= <-] [= <-].
      apply score_le_refl.
Qed.

(** **** The claims *)

(** C1: for every root, [runSearchMethod] returns an evaluated node that no
    node evaluated during the run scores lower than, and it returns the
    root itself (with its score) if no evaluated node scored lower than the
    root. *)
Theorem search_returns_lowest_scored (root : node) :
  let r := scored root in
  let final := run root in
  (irState r = irState root /\ history r = history root)
  /\ r ∈ evaluatedNodes final
  /\ search root ∈ evaluatedNodes final
  /\ (forall n, n ∈ evaluatedNodes final ->
                score_le (scoreOf (search root)) (scoreOf n))
  /\ ((forall n, n ∈ evaluatedNodes final ->
                 score_ltb (scoreOf n) (scoreOf r) = false) ->
      search root = r).
Proof.
  intros r final.
  destruct (bestInvariant_run root) as (Hr & Hbest & Hlow & Hroot).
  repeat split; try done.
  intros Hnone. destruct Hroot as [Heq | Hlt]; [exact Heq|].
  specialize (Hnone _ Hbest). unfold score_lt in Hlt.
  fold r in Hlt. unfold runSearchMethod in *. congruence.
Qed.

(** C2: the score of the global-best slot never increases, from one update
    to the next and from one generation to any later one, and when the run
    ends it is the minimum of the scores of all nodes evaluated during the
    run, whether they survived pruning or not. *)
Theorem global_best_monotone (root : node) :
  let run_states :=
    states (Z.to_nat (maxDepth limits))
           (initialState limits measure reduce root) in
  (forall best child : node,
      score_le (scoreOf (updateGlobalBest best child)) (scoreOf best))
  /\ (forall i j si sj,
        i <= j -> run_states !! i = Some si -> run_states !! j = Some sj ->
        score_le (scoreOf (globalBest sj)) (scoreOf (globalBest si)))
  /\ last run_states = Some (run root)
  /\ (forall s s',
        step s = Some s' ->
        evaluatedNodes s' =
          evaluatedNodes s ++
          map scored (take (budgetLeft limits s)
                           (expand operators (frontier s))))
  /\ (forall s n,
        s ∈ run_states -> n ∈ evaluatedNodes s ->
        n ∈ evaluatedNodes (run root))
  /\ scoreOf (search root) =
       minimumScore (map scoreOf (evaluatedNodes (run root))).
Proof.
  intros run_states. split; [apply updateGlobalBest_le_best|].
  split; [intros i j si sj; apply trajectory_monotone|].
  split; [apply trajectory_last|].
  split; [by intros s s' (_ & _ & ->)%generation_Some|].
  split; [intros s n; apply trajectory_evaluated|].
  destruct (bestInvariant_run root) as (_ & Hbest & Hlow & _).
  symmetry. apply minimumScore_unique.
  - by apply list_elem_of_fmap_2.
  - intros y (n & -> & Hn)%list_elem_of_fmap. by apply Hlow.
Qed.

(** C3: in every run with a beam size that is not negative, every state
    after the first pruning step has a frontier of at most [beamSize]
    nodes. *)
Theorem frontier_within_beam (root : node) i (st : state) :
  (0 <= BeamSearchDecl.beamSize self)%Z ->
  states (Z.to_nat (maxDepth limits))
         (initialState limits measure reduce root) !! S i = Some st ->
  (Z.of_nat (length (frontier st)) <= BeamSearchDecl.beamSize self)%Z.
Proof.
  intros Hbeam (s & _ & (-> & _)%generation_Some)%trajectory_successor.
  pose proof (prune_length
                (map scored (take (budgetLeft limits s)
                                  (expand operators (frontier s))))).
  lia.
Qed.

(** A node with a cost as score has that score recorded. *)
Lemma scoreOf_cost (n : node) c : scoreOf n = Cost c -> score n = Some (Cost c).
Proof. unfold scoreOf. destruct (score n); simpl; congruence. Qed.

(** What the pruning step drops: the frontier and the dropped children
    together are the children, children are dropped only from a full
    frontier, and every child kept ranks before every child dropped. *)
Lemma prune_dropped (children : list node) :
  let beamSize := Z.to_nat (BeamSearchDecl.beamSize self) in
  let dropped := drop beamSize (sortBy pruneLe children) in
  prune self children ++ dropped ≡ₚ children
  /\ (dropped ≠ [] -> length (prune self children) = beamSize)
  /\ (forall k d, k ∈ prune self children -> d ∈ dropped ->
                  pruneLe k d = true).
Proof.
  intros beamSize dropped. unfold prune. fold beamSize. split.
  { subst dropped. rewrite take_drop. apply sortBy_Permutation. }
  split.
  - intros Hdropped. apply length_take_le.
    destruct (decide (beamSize <= length (sortBy pruneLe children)));
      [done|].
    destruct Hdropped. apply drop_ge. lia.
  - intros k d Hk Hd.
    apply (StronglySorted_app_1_elem_of (fun a b : node => pruneLe a b = true)
             (take beamSize (sortBy pruneLe children)) dropped); try done.
    subst dropped. rewrite take_drop.
    apply sortBy_StronglySorted; [apply pruneLe_total | apply pruneLe_trans].
Qed.


End Run.

(** *** Two runs *)
Section Determinism.

Context {IrState ParameterSet : Type}.

#[local] Abbreviation node := (Node IrState ParameterSet).
#[local] Abbreviation operator := (TransformationOperator IrState ParameterSet).

(** Two operators enumerate the same parameter sets in the same order and
    apply them alike. *)
Definition operatorsAgree (op1 op2 : operator) : Prop :=
  kind op1 = kind op2
  /\ (forall n, enumerateLegalParameterizations op1 n =
                enumerateLegalParameterizations op2 n)
  /\ (forall n params, apply op1 n params = apply op2 n params).

Lemma childrenBy_agree (n : node) op1 op2 :
  operatorsAgree op1 op2 -> childrenBy n op1 = childrenBy n op2.
Proof.
  intros (Hkind & Henum & Happly). unfold childrenBy. rewrite Henum.
  induction (enumerateLegalParameterizations op2 n) as [|params l IH];
    csimpl; [done|].
  rewrite IH, Happly. unfold materialize. by rewrite Hkind.
Qed.

Lemma children_agree (n : node) ops1 ops2 :
  Forall2 operatorsAgree ops1 ops2 ->
  flat_map (childrenBy n) ops1 = flat_map (childrenBy n) ops2.
Proof.
  induction 1 as [|op1 op2 l1 l2 Hop _ IH]; simpl; [done|].
  by rewrite IH, (childrenBy_agree n op1 op2 Hop).
Qed.

Variable self : BeamSearchDecl.BeamSearch.
Variable limits : Limits.
Variables operators1 operators2 : list operator.
Variables measure1 measure2 : Z -> IrState -> option (list Z).
Variables reduce1 reduce2 : list Z -> Z.

Hypothesis same_operators : Forall2 operatorsAgree operators1 operators2.
Hypothesis same_timings : forall timeout s, measure1 timeout s = measure2 timeout s.
Hypothesis same_reduction : forall timings, reduce1 timings = reduce2 timings.

Lemma evaluateNode_agree (n : node) :
  evaluateNode limits measure1 reduce1 n = evaluateNode limits measure2 reduce2 n.
Proof.
  unfold evaluateNode, evaluate. rewrite same_timings.
  destruct (measure2 _ _); simpl; [|done]. by rewrite same_reduction.
Qed.

Lemma expand_agree (frontier : list node) :
  expand operators1 frontier = expand operators2 frontier.
Proof.
  unfold expand. induction frontier as [|n l IH]; simpl; [done|].
  by rewrite IH, (children_agree n _ _ same_operators).
Qed.

Lemma generation_agree st :
  generation self operators1 limits measure1 reduce1 st =
  generation self operators2 limits measure2 reduce2 st.
Proof.
  unfold generation. rewrite expand_agree.
  destruct (budgetLeft limits st =? 0); [done|].
  destruct (expand operators2 (frontier st)) as [|c l]; [done|].
  by rewrite (map_ext _ _ evaluateNode_agree).
Qed.

Lemma generations_agree depthLeft st :
  generations self operators1 limits measure1 reduce1 depthLeft st =
  generations self operators2 limits measure2 reduce2 depthLeft st.
Proof.
  revert st. induction depthLeft as [|d IH]; intros st; simpl; [done|].
  rewrite generation_agree.
  by destruct (generation self operators2 limits measure2 reduce2 st).
Qed.


End Determinism.

End SearchFacts.

(** ** A small search space, run *)
Module SearchExamples.
Import Search SearchFacts.

(** The median of the timings. *)
Definition median (timings : list Z) : Z :=
  nth (length timings / 2) (sortBy Z.leb timings) 0%Z.

(** IR states and parameter sets are integers: a state is the sum of the
    parameters applied so far. Tiling proposes 16, 32 and 7; a size is legal
    when it is a multiple of 16 and the state stays within 48. *)
Definition tiling : TransformationOperator Z Z :=
  {| kind := Tiling;
     parameterDomain := fun _ => [16; 32; 7]%Z;
     isLegal := fun n p => ((p mod 16 =? 0) && (irState n + p <=? 48))%Z;
     transform := fun n p => (irState n + p)%Z |}.

(** The same operator, written without the size that is never legal. *)
Definition tilingFiltered : TransformationOperator Z Z :=
  {| kind := Tiling;
     parameterDomain := fun _ => [16; 32]%Z;
     isLegal := fun n p => ((irState n + p <=? 48) && (p mod 16 =? 0))%Z;
     transform := fun n p => (p + irState n)%Z |}.

(** Vectorization proposes the widths 4 and 8 on a tiled state. *)
Definition vectorization : TransformationOperator Z Z :=
  {| kind := Vectorization;
     parameterDomain := fun _ => [4; 8]%Z;
     isLegal := fun n p => ((irState n mod 16 =? 0) && (0 <? irState n))%Z;
     transform := fun n p => (irState n + p)%Z |}.

(** Three repetitions; state 48 does not compile, and a state slower than
    the timeout is cancelled. *)
Definition timings (timeout : Z) (s : Z) : option (list Z) :=
  if (s =? 48)%Z then None
  else if (timeout <? 100 - s)%Z then None
  else Some [100 - s + 4; 100 - s; 100 - s + 2]%Z.

(** The same evaluator, with the two tests in the other order. *)
Definition timingsAgain (timeout : Z) (s : Z) : option (list Z) :=
  if (timeout <? 100 - s)%Z then None
  else if (s =? 48)%Z then None
  else Some [100 - s + 4; 100 - s; 100 - s + 2]%Z.

(** An evaluator that fails on every transformed state. *)
Definition onlyRootRuns (timeout : Z) (s : Z) : option (list Z) :=
  if (s =? 0)%Z then Some [100; 104; 102]%Z else None.

Definition beam : BeamSearchDecl.BeamSearch :=
  {| BeamSearchDecl.beamSize := 2;
     BeamSearchDecl.context := 1;
     BeamSearchDecl.functionName := "matmul" |}.

Definition generous : Limits :=
  {| maxDepth := 4; evaluationBudget := 100; perCandidateTimeout := 1000 |}.

Definition budgetOfOne : Limits :=
  {| maxDepth := 4; evaluationBudget := 1; perCandidateTimeout := 1000 |}.

Definition root : Node Z Z :=
  {| irState := 0%Z; history := []; score := None; parent := None |}.

Definition operators := [tiling; vectorization].

(** A node by its state, the parameters of its history and its score. *)
Definition summary (n : Node Z Z) : Z * list Z * option Score :=
  (irState n, map parameterSet (history n), score n).

(** The run: the root costs 102; the best node is reached by tiling 32 and
    vectorizing by 8. *)
Example run_result :
  summary (runSearchMethod beam operators generous timings median root)
  = (40%Z, [32%Z; 8%Z], Some (Cost 62)).
Proof. reflexivity. Qed.

(** The nodes evaluated, in order; the two that fail are kept with
    [+∞]. *)
Example run_evaluated :
  map summary
      (evaluatedNodes (runSearch beam operators generous timings median root))
  = [ (0, [], Some (Cost 102));
      (16, [16], Some (Cost 86)); (32, [32], Some (Cost 70));
      (48, [32; 16], Some Unusable); (36, [32; 4], Some (Cost 66));
      (40, [32; 8], Some (Cost 62)); (32, [16; 16], Some (Cost 70));
      (48, [16; 32], Some Unusable); (20, [16; 4], Some (Cost 82));
      (24, [16; 8], Some (Cost 78)) ]%Z.
Proof. reflexivity. Qed.

(** The frontiers of the three generations. *)
Example run_frontiers :
  map (fun st => map summary (frontier st))
      (trajectory beam operators generous timings median 4
                  (initialState generous timings median root))
  = [ [ (0, [], Some (Cost 102)) ];
      [ (32, [32], Some (Cost 70)); (16, [16], Some (Cost 86)) ];
      [ (40, [32; 8], Some (Cost 62)); (36, [32; 4], Some (Cost 66)) ] ]%Z.
Proof. reflexivity. Qed.

(** When every transformed state fails, the root is returned. *)
Example run_all_fail :
  summary (runSearchMethod beam operators generous onlyRootRuns median root)
  = (0%Z, [], Some (Cost 102)).
Proof. reflexivity. Qed.

(** With a budget of one only the root is evaluated. *)
Example run_budget_one :
  map summary
      (evaluatedNodes
         (runSearch beam operators budgetOfOne timings median root))
  = [ (0%Z, [], Some (Cost 102)) ].
Proof. reflexivity. Qed.

(** A scored child by its state, the parameters of its history and its
    cost. *)
Definition candidate (s : Z) (params : list Z) (c : Z) : Node Z Z :=
  {| irState := s;
     history := map (fun p => {| operatorKind := Tiling; parameterSet := p |})
                    params;
     score := Some (Cost c);
     parent := None |}.

(** Pruning four children to a beam of two: the lowest score comes first;
    of the three children that cost 70 the one with the longer history
    loses, and of the two that remain the one inserted first wins. *)
Example prune_breaks_ties :
  map summary
      (prune beam [ candidate 20 [16; 4] 70; candidate 32 [32] 70;
                    candidate 33 [33] 70; candidate 40 [32; 8] 62 ]%Z)
  = [ (40, [32; 8], Some (Cost 62)); (32, [32], Some (Cost 70)) ]%Z.
Proof. reflexivity. Qed.

(** C1 on the example: the node returned is among the evaluated nodes. *)
Lemma search_returns_lowest_scored_witness :
  runSearchMethod beam operators generous timings median root
    ∈ evaluatedNodes (runSearch beam operators generous timings median root).
Proof.
  exact (proj1 (proj2 (proj2
           (search_returns_lowest_scored beam operators generous timings
              median root)))).
Defined.

(** C2 on the example: the score returned is the minimum of the scores
    evaluated. *)
Lemma global_best_monotone_witness :
  scoreOf (runSearchMethod beam operators generous timings median root)
  = minimumScore
      (map scoreOf
         (evaluatedNodes
            (runSearch beam operators generous timings median root))).
Proof.
  exact (proj2 (proj2 (proj2 (proj2 (proj2
           (global_best_monotone beam operators generous timings median
              root)))))).
Defined.

(** C3 on the example: the frontier after the first generation. *)
Lemma frontier_within_beam_witness :
  (Z.of_nat
     (length (frontier (generations beam operators generous timings median 1
                          (initialState generous timings median root))))
   <= BeamSearchDecl.beamSize beam)%Z.
Proof.
  apply (frontier_within_beam beam operators generous timings median root 0).
  - simpl. lia.
  - reflexivity.
Defined.

(** When every transformed state fails, the failed children are the next
    frontier all the same. *)
Example run_all_fail_frontier :
  map summary
      (frontier (generations beam operators generous onlyRootRuns median 1
                   (initialState generous onlyRootRuns median root)))
  = [ (16, [16], Some Unusable); (32, [32], Some Unusable) ]%Z.
Proof. reflexivity. Qed.


Lemma tiling_agree : operatorsAgree tiling tilingFiltered.
Proof.
  unfold operatorsAgree, enumerateLegalParameterizations, apply. simpl.
  repeat split.
  - intros n. by rewrite !andb_true_r.
  - intros n params. by rewrite andb_comm, Z.add_comm.
Qed.

Lemma vectorization_agree : operatorsAgree vectorization vectorization.
Proof. by unfold operatorsAgree. Qed.


End SearchExamples.

(** * Further properties of the code *)

(** ** [runOnOperation]: outcomes *)
Module InterpreterPassOutcomes.
Import TransformDialectInterpreter InterpreterPassFacts.

(** With at most one first binding the first row is pushed exactly when a
    first binding is set. *)
Lemma bindFirst_length o root extraMapping :
  firstSetOptions o <= 1 ->
  length (bindFirst o root extraMapping)
  = length extraMapping + firstSetOptions o.
Proof.
  unfold firstSetOptions, numberOfSetOptions, bindFirst,
    createParameterMapping, createOpResultMapping.
  destruct (str_empty (bindFirstExtraToOps o)),
    (list_empty (bindFirstExtraToParams o)),
    (str_empty (bindFirstExtraToResultsOfOps o)); simpl; intros ?;
    rewrite ?length_app; simpl; lia.
Qed.

Lemma bindSecond_length o root extraMapping :
  secondSetOptions o <= 1 ->
  length (bindSecond o root extraMapping)
  = length extraMapping + secondSetOptions o.
Proof.
  unfold secondSetOptions, numberOfSetOptions, bindSecond,
    createParameterMapping, createOpResultMapping.
  destruct (str_empty (bindSecondExtraToOps o)),
    (list_empty (bindSecondExtraToParams o)),
    (str_empty (bindSecondExtraToResultsOfOps o)); simpl; intros ?;
    rewrite ?length_app; simpl; lia.
Qed.

(** X1: the interpreter is left out exactly when one of the two extra
    arguments is bound to several entities, and pass failure is signalled
    exactly then or when the interpreter, run on the mapping that was built,
    fails. *)
Theorem pass_failure_iff interpreter o root :
  let out := runOnOperation interpreter o root in
  (interpreterRun out = None
   <-> 1 < firstSetOptions o \/ 1 < secondSetOptions o)
  /\ (passFailureSignalled out = true
      <-> 1 < firstSetOptions o \/ 1 < secondSetOptions o
          \/ exists extraMapping,
               interpreterRun out = Some extraMapping
               /\ (interpreter root extraMapping o).2 = failure).
Proof.
  intros out. subst out. unfold runOnOperation.
  destruct (1 <? firstSetOptions o) eqn:E1.
  { apply Nat.ltb_lt in E1. simpl. split; split; auto. }
  destruct (1 <? secondSetOptions o) eqn:E2.
  { apply Nat.ltb_lt in E2. simpl. split; split; auto. }
  apply Nat.ltb_ge in E1, E2.
  destruct (interpreter root (bindSecond o root (bindFirst o root [])) o)
    as [diags result] eqn:E. simpl. split; split.
  - done.
  - lia.
  - intros Hfailed. right. right. eexists. split; [reflexivity|].
    rewrite E. simpl. by destruct result.
  - intros [?|[?|(m & [= <-] & Hm)]]; [lia..|].
    rewrite E in Hm. simpl in Hm. by rewrite Hm.
Qed.

(** X2: when the interpreter is run, the extra mapping has one row for
    each extra argument that is bound, the first argument's row first: as
    many rows as options are set, and never more than two. *)
Theorem extra_mapping_rows interpreter o root extraMapping :
  interpreterRun (runOnOperation interpreter o root) = Some extraMapping ->
  extraMapping = bindSecond o root (bindFirst o root [])
  /\ length extraMapping = firstSetOptions o + secondSetOptions o
  /\ length extraMapping <= 2.
Proof.
  unfold runOnOperation.
  destruct (1 <? firstSetOptions o) eqn:E1; [done|].
  destruct (1 <? secondSetOptions o) eqn:E2; [done|].
  apply Nat.ltb_ge in E1, E2.
  destruct (interpreter root (bindSecond o root (bindFirst o root [])) o)
    as [diags result]. simpl. intros [= <-].
  rewrite bindSecond_length, bindFirst_length by done. simpl.
  split; [done|]. lia.
Qed.

(** X2 at [oneSecondBinding]: one row. *)
Lemma extra_mapping_rows_witness :
  length [[MappedParam (I64IntegerAttr 4); MappedParam (I64IntegerAttr 8)]]
  = firstSetOptions oneSecondBinding + secondSetOptions oneSecondBinding.
Proof.
  exact (proj1 (proj2 (extra_mapping_rows quietInterpreter oneSecondBinding
                         payload _ eq_refl))).
Defined.

End InterpreterPassOutcomes.

(** ** The erase-schedule passes *)
Module EraseScheduleFacts.
Import TransformDialectInterpreter EraseSchedule.

(** Induction on an operation with the nested operations as hypotheses. *)
Lemma Operation_nested_ind (P : Operation -> Prop) :
  (forall name results body, Forall P body -> P (Op name results body)) ->
  forall op, P op.
Proof.
  intros H. fix IH 1. intros [name results body]. apply H.
  induction body as [|nestedOp rest IHrest]; constructor;
    [apply IH | exact IHrest].
Qed.

Section Erase.

Variable isTransformOp : string -> bool.

#[local] Abbreviation erase := (eraseNested isTransformOp).
#[local] Abbreviation payloadOp :=
  (fun op : Operation => isTransformOp (getName op) = false).

(** The nested operations after the walk: the transform operations are
    gone, the others have been walked. *)
Lemma eraseNested_body name results body :
  erase (Op name results body)
  = Op name results
       (map erase (List.filter (fun op => negb (isTransformOp (getName op)))
                               body)).
Proof.
  simpl. f_equal.
  induction body as [|nestedOp rest IH]; simpl; [done|].
  destruct (isTransformOp (getName nestedOp)); simpl; by rewrite IH.
Qed.

Lemma eraseNested_name op : getName (erase op) = getName op.
Proof. by destruct op. Qed.

(** Below the root no transform operation is left. *)
Lemma eraseNested_clean op : Forall payloadOp (flat_map walkPreOrder
                                                 (getBody (erase op))).
Proof.
  induction op as [name results body IH] using Operation_nested_ind.
  rewrite eraseNested_body. simpl.
  induction body as [|nestedOp rest IHrest]; simpl; [constructor|].
  apply Forall_cons_1 in IH as [IHop IHbody].
  destruct (isTransformOp (getName nestedOp)) eqn:E; simpl; [by apply IHrest|].
  apply Forall_app. split; [|by apply IHrest].
  destruct (erase nestedOp) as [name' results' body'] eqn:Eop. simpl.
  constructor.
  - simpl. change name' with (getName (Op name' results' body')).
    by rewrite <- Eop, eraseNested_name.
  - exact IHop.
Qed.

(** An operation with no transform operation nested in it is left as it
    is. *)
Lemma eraseNested_id op :
  Forall payloadOp (flat_map walkPreOrder (getBody op)) -> erase op = op.
Proof.
  induction op as [name results body IH] using Operation_nested_ind.
  rewrite eraseNested_body. simpl. intros Hclean. f_equal.
  induction body as [|nestedOp rest IHrest]; simpl; [done|].
  apply Forall_cons_1 in IH as [IHop IHbody].
  simpl in Hclean. apply Forall_app in Hclean as [Hop Hrest].
  destruct nestedOp as [name' results' body']. simpl in Hop.
  apply Forall_cons_1 in Hop as [Hname Hnested]. simpl in Hname.
  cbn [List.filter getName]. rewrite Hname. cbn [negb map]. f_equal.
  - by apply IHop.
  - by apply IHrest.
Qed.

(** X3: after the pass no transform operation is left anywhere in the
    operation it ran on. *)
Theorem erase_leaves_no_transform root root' :
  runOnOperation isTransformOp root = Some root' ->
  Forall payloadOp (walkPreOrder root').
Proof.
  unfold runOnOperation.
  destruct (isTransformOp (getName root)) eqn:E; [done|]. intros [= <-].
  pose proof (eraseNested_clean root) as Hclean.
  pose proof (eraseNested_name root) as Hname.
  destruct (erase root) as [name results body]. simpl in *.
  constructor; [simpl; congruence | exact Hclean].
Qed.

(** X4: the pass changes nothing in an operation that holds no transform
    operation, and running it a second time changes nothing. *)
Theorem erase_idempotent root :
  (Forall payloadOp (walkPreOrder root) ->
   runOnOperation isTransformOp root = Some root)
  /\ (forall root', runOnOperation isTransformOp root = Some root' ->
                    runOnOperation isTransformOp root' = Some root').
Proof.
  split.
  - intros Hclean. unfold runOnOperation.
    destruct root as [name results body]. simpl in *.
    apply Forall_cons_1 in Hclean as [Hname Hnested]. simpl in Hname.
    rewrite Hname. f_equal. by apply (eraseNested_id (Op name results body)).
  - intros root'. unfold runOnOperation.
    destruct (isTransformOp (getName root)) eqn:E; [done|]. intros [= <-].
    rewrite eraseNested_name, E. f_equal.
    apply eraseNested_id, eraseNested_clean.
Qed.

End Erase.

(** Operations of the transform dialect, by the prefix of their name. *)
Definition inTransformDialect (name : string) : bool :=
  String.prefix "transform." name.

(** A module with a function and a transform sequence that holds a
    nested transform operation. *)
Definition scheduled : Operation :=
  Op "builtin.module" []
     [ Op "func.func" [] [Op "arith.constant" [0] []];
       Op "transform.sequence" [] [Op "transform.yield" [] []] ].

Definition unscheduled : Operation :=
  Op "builtin.module" [] [ Op "func.func" [] [Op "arith.constant" [0] []] ].

Example erase_scheduled :
  runOnOperation inTransformDialect scheduled = Some unscheduled.
Proof. reflexivity. Qed.

(** X3 on [scheduled]. *)
Lemma erase_leaves_no_transform_witness :
  Forall (fun op => inTransformDialect (getName op) = false)
         (walkPreOrder unscheduled).
Proof.
  exact (erase_leaves_no_transform inTransformDialect scheduled unscheduled
           eq_refl).
Defined.

(** X4 on [scheduled]: the second run. *)
Lemma erase_idempotent_witness :
  runOnOperation inTransformDialect unscheduled = Some unscheduled.
Proof.
  exact (proj2 (erase_idempotent inTransformDialect scheduled) unscheduled
           eq_refl).
Defined.

End EraseScheduleFacts.

(** ** Finding the payload root and the transform root *)
Module FindRootsFacts.
Import TransformInterpreterPassBase TransformInterpreterRun.

Lemma Operation_walk_ind (P : Operation -> Prop) :
  (forall ref name attributes body,
      Forall P body -> P (Op ref name attributes body)) ->
  forall op, P op.
Proof.
  intros H. fix IH 1. intros [ref name attributes body]. apply H.
  induction body as [|nestedOp rest IHrest]; constructor;
    [apply IH | exact IHrest].
Qed.

(** What a walk that stops at the second hit returns, from what was found
    before and the hits in the order of the walk. *)
Definition firstTwo (found : option Operation) (hits : list Operation)
  : option Operation * option Operation :=
  match found, hits with
  | None, [] => (None, None)
  | None, [first] => (Some first, None)
  | None, first :: other :: _ => (Some first, Some other)
  | Some first, [] => (Some first, None)
  | Some first, other :: _ => (Some first, Some other)
  end.

Lemma firstTwo_app found hits1 hits2 :
  firstTwo found (hits1 ++ hits2)
  = match firstTwo found hits1 with
    | (found', Some other) => (found', Some other)
    | (found', None) => firstTwo found' hits2
    end.
Proof.
  destruct found, hits1 as [|a [|b hits1]], hits2 as [|c [|d hits2]]; done.
Qed.

(** The operations of the walk that carry the tag, in walk order. *)
Definition tagged (tagKey tagValue : string) (root : Operation)
  : list Operation :=
  List.filter (hasTag tagKey tagValue) (preOrder root).

Lemma findOpWithTag_walk_firstTwo tagKey tagValue ops found :
  findOpWithTag_walk tagKey tagValue ops found
  = firstTwo found (List.filter (hasTag tagKey tagValue) ops).
Proof.
  revert found. induction ops as [|op rest IH]; intros found; simpl.
  - by destruct found.
  - destruct (hasTag tagKey tagValue op); simpl; [|apply IH].
    destruct found as [first|]; [done|]. rewrite IH.
    by destruct (List.filter _ rest).
Qed.

(** [findOpWithTag] by the operations that carry the tag. *)
Lemma findOpWithTag_eq root tagKey tagValue :
  findOpWithTag root tagKey tagValue
  = match tagged tagKey tagValue root with
    | [] => ([CouldNotFindTagged tagKey tagValue], None)
    | [found] => ([], Some found)
    | first :: other :: _ =>
        ([MoreThanOneTagged tagKey tagValue (getRef first) (getRef other)],
         None)
    end.
Proof.
  unfold findOpWithTag, tagged. rewrite findOpWithTag_walk_firstTwo.
  by destruct (List.filter _ _) as [|first [|other rest]].
Qed.

(** X5: [findOpWithTag] returns an operation exactly when one operation
    of the walk carries the tag with the value, and then that one, without
    a diagnostic; with none it reports that it could not find one, with
    several it reports the first two, and in both cases it returns no
    operation. *)
Theorem findOpWithTag_unique root tagKey tagValue :
  (forall found,
      (findOpWithTag root tagKey tagValue).2 = Some found
      <-> tagged tagKey tagValue root = [found])
  /\ (forall found,
        tagged tagKey tagValue root = [found] ->
        found ∈ preOrder root
        /\ getAttrs found !! tagKey = Some (StringAttr tagValue)
        /\ (findOpWithTag root tagKey tagValue).1 = [])
  /\ (tagged tagKey tagValue root = [] ->
      findOpWithTag root tagKey tagValue
      = ([CouldNotFindTagged tagKey tagValue], None))
  /\ (forall first other rest,
        tagged tagKey tagValue root = first :: other :: rest ->
        findOpWithTag root tagKey tagValue
        = ([MoreThanOneTagged tagKey tagValue (getRef first) (getRef other)],
           None)).
Proof.
  rewrite findOpWithTag_eq. split; [|split; [|split]].
  - intros found. split.
    + destruct (tagged tagKey tagValue root) as [|first [|other rest]];
        simpl; congruence.
    + by intros ->.
  - intros found Hone.
    assert (Hin : found ∈ tagged tagKey tagValue root) by (rewrite Hone; left).
    apply list_elem_of_In, filter_In in Hin as [Hin Htag].
    split; [by apply list_elem_of_In|]. split; [|by rewrite Hone].
    unfold hasTag in Htag.
    destruct (getAttrs found !! tagKey) as [[value| |]|]; try done.
    by apply bool_decide_eq_true in Htag as ->.
  - by intros ->.
  - by intros first other rest ->.
Qed.

Section Roots.

Variable isTransformOp : string -> bool.
Variable possibleTopLevel : string -> bool.

(** The top-level transform operations that are not nested in a transform
    operation, in walk order. *)
Fixpoint topLevelCandidates (op : Operation) : list Operation :=
  match op with
  | Op _ name _ body =>
      if isTransformOp name then
        if possibleTopLevel name then [op] else []
      else flat_map topLevelCandidates body
  end.

Lemma findTopLevelTransform_walk_firstTwo op top :
  findTopLevelTransform_walk isTransformOp possibleTopLevel op top
  = firstTwo top (topLevelCandidates op).
Proof.
  revert top.
  induction op as [ref name attributes body IH] using Operation_walk_ind.
  intros top. simpl.
  destruct (isTransformOp name).
  { destruct (possibleTopLevel name); simpl; by destruct top. }
  revert top. induction body as [|nestedOp rest IHrest]; intros top.
  - by destruct top.
  - apply Forall_cons_1 in IH as [IHop IHbody].
    cbn [flat_map]. rewrite firstTwo_app, IHop.
    destruct (firstTwo top (topLevelCandidates nestedOp)) as [top' [other|]];
      [done|]. by apply IHrest.
Qed.

Lemma topLevelCandidates_trait op :
  Forall (fun candidate =>
            isTransformOp (getName candidate) = true
            /\ possibleTopLevel (getName candidate) = true
            /\ candidate ∈ preOrder op)
         (topLevelCandidates op).
Proof.
  induction op as [ref name attributes body IH] using Operation_walk_ind.
  simpl. destruct (isTransformOp name) eqn:Etransform.
  { destruct (possibleTopLevel name) eqn:Etop; [|constructor].
    repeat constructor; done. }
  assert (Hbody : Forall (fun candidate =>
                            isTransformOp (getName candidate) = true
                            /\ possibleTopLevel (getName candidate) = true
                            /\ candidate ∈ flat_map preOrder body)
                         (flat_map topLevelCandidates body)).
  { induction body as [|nestedOp rest IHrest]; simpl; [constructor|].
    apply Forall_cons_1 in IH as [IHop IHbody].
    apply Forall_app. split.
    - eapply Forall_impl; [exact IHop|]. simpl.
      intros candidate (? & ? & Hin). repeat split; try done.
      apply elem_of_app. by left.
    - eapply Forall_impl; [by apply IHrest|]. simpl.
      intros candidate (? & ? & Hin). repeat split; try done.
      apply elem_of_app. by right. }
  eapply Forall_impl; [exact Hbody|]. simpl.
  intros candidate (? & ? & Hin). repeat split; try done. by right.
Qed.

(** [findTopLevelTransform] by the candidates. *)
Lemma findTopLevelTransform_eq root filenameOption :
  findTopLevelTransform isTransformOp possibleTopLevel root filenameOption
  = match topLevelCandidates root with
    | [] => ([CouldNotFindTopLevel filenameOption], None)
    | [topLevelTransform] => ([], Some topLevelTransform)
    | previous :: other :: _ =>
        ([MoreThanOneTopLevel (getRef other) (getRef previous)], None)
    end.
Proof.
  unfold findTopLevelTransform. rewrite findTopLevelTransform_walk_firstTwo.
  by destruct (topLevelCandidates root) as [|previous [|other rest]].
Qed.

(** X6: [findTopLevelTransform] returns an operation exactly when the
    walk meets one top-level transform operation outside of any transform
    operation, and then that one; with none it reports that it could not
    find one, with several it reports the first two, and in both cases it
    returns no operation. *)
Theorem findTopLevelTransform_unique root filenameOption :
  (forall found,
      (findTopLevelTransform isTransformOp possibleTopLevel root
         filenameOption).2 = Some found
      <-> topLevelCandidates root = [found])
  /\ (topLevelCandidates root = [] ->
      findTopLevelTransform isTransformOp possibleTopLevel root filenameOption
      = ([CouldNotFindTopLevel filenameOption], None))
  /\ (forall previous other rest,
        topLevelCandidates root = previous :: other :: rest ->
        findTopLevelTransform isTransformOp possibleTopLevel root
          filenameOption
        = ([MoreThanOneTopLevel (getRef other) (getRef previous)], None)).
Proof.
  rewrite findTopLevelTransform_eq. split; [|split].
  - intros found. split.
    + destruct (topLevelCandidates root) as [|previous [|other rest]];
        simpl; congruence.
    + by intros ->.
  - by intros ->.
  - by intros previous other rest ->.
Qed.

(** X7: the operation [findTopLevelTransform] returns is an operation of
    the walk, it implements the transform interface and it has the
    top-level trait. *)
Theorem findTopLevelTransform_trait root filenameOption diags found :
  findTopLevelTransform isTransformOp possibleTopLevel root filenameOption
  = (diags, Some found) ->
  found ∈ preOrder root
  /\ isTransformOp (getName found) = true
  /\ possibleTopLevel (getName found) = true.
Proof.
  rewrite findTopLevelTransform_eq.
  pose proof (topLevelCandidates_trait root) as Htrait.
  destruct (topLevelCandidates root) as [|previous [|other rest]]; try done.
  intros [= _ <-]. apply Forall_cons_1 in Htrait as [(? & ? & ?) _]. done.
Qed.

(** Closes a goal that says a diagnostic is not in a list built from
    lists it is known not to be in. *)
Ltac diagnostic_absent :=
  rewrite ?elem_of_app, ?elem_of_cons, ?elem_of_nil in *;
  intuition congruence.

(** The searches report nothing about the entry point. *)
Lemma findOpWithTag_diagnostics root tagKey tagValue entry :
  ExpectedTopLevelTransform entry ∉ (findOpWithTag root tagKey tagValue).1.
Proof.
  rewrite findOpWithTag_eq.
  destruct (tagged tagKey tagValue root) as [|first [|other rest]]; simpl;
    diagnostic_absent.
Qed.

Lemma findTopLevelTransform_diagnostics root filenameOption entry :
  ExpectedTopLevelTransform entry ∉
    (findTopLevelTransform isTransformOp possibleTopLevel root
       filenameOption).1.
Proof.
  rewrite findTopLevelTransform_eq.
  destruct (topLevelCandidates root) as [|previous [|other rest]]; simpl;
    diagnostic_absent.
Qed.

(** The operation that holds the transform: the shared module when there
    is one, the target otherwise. *)
Definition transformContainer (target : Operation)
    (sharedTransformModule : option (option Operation)) : Operation :=
  match sharedTransformModule with
  | Some (Some module) => module
  | _ => target
  end.

(** X8: without a debug transform root tag the check of the entry point
    cannot fail: "expected the transform entry point to be a top-level
    transform op" is never reported. *)
Theorem entry_point_error_needs_tag target sharedTransformModule
    transformFileName debugPayloadRootTag debugTransformRootTag entry :
  opt_empty debugTransformRootTag = true ->
  ExpectedTopLevelTransform entry ∉
    (selectRoots isTransformOp possibleTopLevel target sharedTransformModule
       transformFileName debugPayloadRootTag debugTransformRootTag).1.
Proof.
  intros Hempty. unfold selectRoots. rewrite Hempty.
  pose proof (findOpWithTag_diagnostics target kTransformDialectTagAttrName
                (getValue debugPayloadRootTag) entry) as Hpayload.
  destruct (if negb (opt_empty debugPayloadRootTag) then _ else _)
    as [diags1 [payloadRoot|]] eqn:E1.
  2:{ destruct (opt_empty debugPayloadRootTag); simpl in E1; [done|].
      by rewrite E1 in Hpayload. }
  assert (Hdiags1 : ExpectedTopLevelTransform entry ∉ diags1).
  { destruct (opt_empty debugPayloadRootTag); simpl in E1.
    - injection E1 as <- _. diagnostic_absent.
    - by rewrite E1 in Hpayload. }
  fold (transformContainer target sharedTransformModule).
  pose proof (findTopLevelTransform_diagnostics
                (transformContainer target sharedTransformModule)
                (getArgStr transformFileName) entry) as Htop.
  pose proof (topLevelCandidates_trait
                (transformContainer target sharedTransformModule)) as Htrait.
  rewrite findTopLevelTransform_eq in *.
  destruct (topLevelCandidates _) as [|previous [|other rest]]; simpl in *.
  - diagnostic_absent.
  - apply Forall_cons_1 in Htrait as [(_ & -> & _) _]. simpl.
    diagnostic_absent.
  - diagnostic_absent.
Qed.

(** X9: steps 3 to 5 are reached only without any diagnostic, with a
    transform root that has the top-level trait and is the one operation
    selected in its container (by the tag when one is given, as the only
    top-level transform otherwise), and with a payload root that is the
    target or, when a tag is given, the one operation below the target that
    carries it. *)
Theorem roots_selected target sharedTransformModule transformFileName
    debugPayloadRootTag debugTransformRootTag diags payloadRoot
    transformRoot sharedTransform :
  selectRoots isTransformOp possibleTopLevel target sharedTransformModule
    transformFileName debugPayloadRootTag debugTransformRootTag
  = (diags, Some (payloadRoot, transformRoot, sharedTransform)) ->
  diags = []
  /\ possibleTopLevel (getName transformRoot) = true
  /\ (if opt_empty debugPayloadRootTag then payloadRoot = target
      else tagged kTransformDialectTagAttrName (getValue debugPayloadRootTag)
             target = [payloadRoot])
  /\ (if opt_empty debugTransformRootTag
      then topLevelCandidates
             (transformContainer target sharedTransformModule)
           = [transformRoot]
      else tagged kTransformDialectTagAttrName
             (getValue debugTransformRootTag)
             (transformContainer target sharedTransformModule)
           = [transformRoot]).
Proof.
  unfold selectRoots.
  fold (transformContainer target sharedTransformModule).
  rewrite !findOpWithTag_eq, findTopLevelTransform_eq.
  destruct (opt_empty debugPayloadRootTag); simpl.
  - destruct (opt_empty debugTransformRootTag); simpl.
    + destruct (topLevelCandidates _) as [|previous [|other rest]];
        simpl; try done.
      destruct (possibleTopLevel (getName previous)) eqn:E; simpl; [|done].
      by intros [= <- <- <- <-].
    + destruct (tagged _ _ (transformContainer _ _))
        as [|previous [|other rest]]; simpl; try done.
      destruct (possibleTopLevel (getName previous)) eqn:E; simpl; [|done].
      by intros [= <- <- <- <-].
  - destruct (tagged _ _ target) as [|found [|second more]]; simpl; try done.
    destruct (opt_empty debugTransformRootTag); simpl.
    + destruct (topLevelCandidates _) as [|previous [|other rest]];
        simpl; try done.
      destruct (possibleTopLevel (getName previous)) eqn:E; simpl; [|done].
      by intros [= <- <- <- <-].
    + destruct (tagged _ _ (transformContainer _ _))
        as [|previous [|other rest]]; simpl; try done.
      destruct (possibleTopLevel (getName previous)) eqn:E; simpl; [|done].
      by intros [= <- <- <- <-].
Qed.

(** X10: when a debug payload root tag is given and the operations below
    the target that carry it are not exactly one, the function returns
    failure with the diagnostic of the search alone, whatever steps 3 to 5
    would do. *)
Theorem payload_tag_must_be_unique stepsThreeToFive target
    sharedTransformModule transformFileName debugPayloadRootTag
    debugTransformRootTag :
  opt_empty debugPayloadRootTag = false ->
  length (tagged kTransformDialectTagAttrName (getValue debugPayloadRootTag)
            target) ≠ 1 ->
  interpreterBaseRunOnOperationImplModified isTransformOp possibleTopLevel
    stepsThreeToFive target sharedTransformModule transformFileName
    debugPayloadRootTag debugTransformRootTag
  = ((findOpWithTag target kTransformDialectTagAttrName
        (getValue debugPayloadRootTag)).1, failure).
Proof.
  intros Hgiven Hcount.
  unfold interpreterBaseRunOnOperationImplModified, selectRoots.
  rewrite Hgiven. simpl. rewrite findOpWithTag_eq.
  by destruct (tagged _ _ target) as [|found [|second more]].
Qed.

End Roots.

(** *** A module with a tagged function and a transform sequence *)

Definition inTransformDialect (name : string) : bool :=
  String.prefix "transform." name.

Definition isSequence (name : string) : bool :=
  bool_decide (name = "transform.sequence").

Definition sequence : Operation :=
  Op 2 "transform.sequence" ∅ [Op 3 "transform.yield" ∅ []].

Definition kernel : Operation :=
  Op 1 "func.func" {[ kTransformDialectTagAttrName := StringAttr "kernel" ]}
     [Op 4 "func.return" ∅ []].

Definition container : Operation := Op 0 "builtin.module" ∅ [kernel; sequence].

Definition tagOption (value : string) : PassOption :=
  {| getArgStr := "debug-payload-root-tag"; getValue := value |}.

Definition noTransformTag : PassOption :=
  {| getArgStr := "debug-transform-root-tag"; getValue := "" |}.

Definition fileOption : PassOption :=
  {| getArgStr := "transform-file-name"; getValue := "" |}.

Definition applyNothing (target payloadRoot transformRoot : Operation)
    (sharedTransform : bool) : list Diagnostic * LogicalResult :=
  ([], success).

(** X7 on [container]. *)
Lemma findTopLevelTransform_trait_witness :
  sequence ∈ preOrder container
  /\ inTransformDialect (getName sequence) = true
  /\ isSequence (getName sequence) = true.
Proof.
  exact (findTopLevelTransform_trait inTransformDialect isSequence container
           "transform-file-name" [] sequence eq_refl).
Defined.

(** X8 on [container]. *)
Lemma entry_point_error_needs_tag_witness :
  ExpectedTopLevelTransform 2 ∉
    (selectRoots inTransformDialect isSequence container None fileOption
       (tagOption "kernel") noTransformTag).1.
Proof.
  exact (entry_point_error_needs_tag inTransformDialect isSequence container
           None fileOption (tagOption "kernel") noTransformTag 2 eq_refl).
Defined.

(** X9 on [container], with the payload root selected by its tag. *)
Lemma roots_selected_witness :
  @nil Diagnostic = []
  /\ isSequence (getName sequence) = true
  /\ tagged kTransformDialectTagAttrName "kernel" container = [kernel]
  /\ topLevelCandidates inTransformDialect isSequence container = [sequence].
Proof.
  exact (roots_selected inTransformDialect isSequence container None
           fileOption (tagOption "kernel") noTransformTag [] kernel sequence
           false eq_refl).
Defined.

(** X10 on [container], with a tag that no operation carries. *)
Lemma payload_tag_must_be_unique_witness :
  interpreterBaseRunOnOperationImplModified inTransformDialect isSequence
    applyNothing container None fileOption (tagOption "missing")
    noTransformTag
  = ([CouldNotFindTagged kTransformDialectTagAttrName "missing"], failure).
Proof.
  refine (payload_tag_must_be_unique inTransformDialect isSequence
            applyNothing container None fileOption (tagOption "missing")
            noTransformTag eq_refl _).
  vm_compute. lia.
Defined.

(** A sequence nested in a sequence is not a second top-level transform:
    the walk does not enter the first. *)
Example nested_sequence_skipped :
  findTopLevelTransform inTransformDialect isSequence
    (Op 0 "builtin.module" ∅
        [Op 2 "transform.sequence" ∅ [Op 5 "transform.sequence" ∅ []]])
    "transform-file-name"
  = ([], Some (Op 2 "transform.sequence" ∅ [Op 5 "transform.sequence" ∅ []])).
Proof. reflexivity. Qed.

(** With a transform root tag the operation found need not be a top-level
    transform, and the entry point is then refused. *)
Example tagged_entry_refused :
  selectRoots inTransformDialect isSequence container None fileOption
    (tagOption "") {| getArgStr := "debug-transform-root-tag";
                      getValue := "kernel" |}
  = ([ExpectedTopLevelTransform 1], None).
Proof. reflexivity. Qed.

End FindRootsFacts.

(** ** [defineDeclaredSymbols] *)
Module DefineSymbolsFacts.
Import TransformInterpreterPassBase.

(** *** Argument attributes *)

Lemma getArgAttr_setArgAttr op i a j :
  getArgAttr (setArgAttr op i a) j
  = if decide (i = j) then a else getArgAttr op j.
Proof.
  unfold getArgAttr, setArgAttr. simpl.
  case_decide as Hij.
  - subst j. rewrite list_lookup_insert_eq; [done|].
    rewrite length_app, length_replicate. lia.
  - rewrite list_lookup_insert_ne by done.
    destruct (decide (j < length (argAttrs op))) as [Hlt|Hge].
    + by rewrite lookup_app_l.
    + rewrite lookup_app_r by lia.
      rewrite (lookup_ge_None_2 (argAttrs op)) by lia. simpl.
      destruct (replicate _ _ !! _) as [x|] eqn:E; [|done].
      by apply lookup_replicate in E as [-> _].
Qed.

(** What [defineDeclaredSymbols] reads of an operation beside the
    attributes of its arguments. *)
Definition shape (op : SymbolOp)
  : option string * nat * bool * option FunctionType :=
  (symName op, numRegions op, region0Empty op, funcType op).

Lemma shape_setArgAttr op i a : shape (setArgAttr op i a) = shape op.
Proof. done. Qed.

(** The declaration lacks an annotation that the definition has on
    argument [i]. *)
Definition conflict (symbolFunc externalSymbolFunc : SymbolOp) (i : nat)
  : bool :=
  (consumed (getArgAttr externalSymbolFunc i)
   && negb (consumed (getArgAttr symbolFunc i)))
  || (readOnly (getArgAttr externalSymbolFunc i)
      && negb (readOnly (getArgAttr symbolFunc i))).

(** The loop from argument [i] on, when it succeeds: the definition keeps
    its shape, the arguments outside of the range keep their attributes, and
    on the arguments of the range the definition keeps the annotations it
    had and has none that the declaration lacks. *)
Lemma mergeArgAttrs_inr todo i symbolFunc ext ext' :
  mergeArgAttrs todo i symbolFunc ext = inr ext' ->
  shape ext' = shape ext
  /\ (forall j, j < i \/ i + todo <= j ->
                getArgAttr ext' j = getArgAttr ext j)
  /\ (forall j, i <= j < i + todo ->
        conflict symbolFunc ext j = false
        /\ conflict symbolFunc ext' j = false
        /\ (consumed (getArgAttr ext j) = true ->
            consumed (getArgAttr ext' j) = true)
        /\ (readOnly (getArgAttr ext j) = true ->
            readOnly (getArgAttr ext' j) = true)).
Proof.
  revert i ext. induction todo as [|todo IH]; intros i ext; simpl.
  { intros [= <-]. repeat split; intros; try done; lia. }
  set (ext1 :=
         if consumed (getArgAttr symbolFunc i) then
           setArgAttr ext i
             {| consumed := true; readOnly := readOnly (getArgAttr ext i) |}
         else if readOnly (getArgAttr symbolFunc i) then
           setArgAttr ext i
             {| consumed := consumed (getArgAttr ext i); readOnly := true |}
         else ext).
  assert (Hshape1 : shape ext1 = shape ext).
  { subst ext1. by repeat case_match. }
  assert (Hframe1 : forall j, j ≠ i -> getArgAttr ext1 j = getArgAttr ext j).
  { intros j Hj. subst ext1.
    repeat case_match; rewrite ?getArgAttr_setArgAttr; try done;
      by case_decide; [lia|]. }
  destruct (consumed (getArgAttr ext i)) eqn:Ec,
    (readOnly (getArgAttr ext i)) eqn:Er; simpl.
  4:{ (* the definition has no annotation on argument [i] *)
    intros Hrest. apply IH in Hrest as (Hshape & Hframe & Hrange).
    fold ext1 in Hshape, Hframe, Hrange.
    split; [congruence|]. split.
    { intros j Hj. rewrite Hframe by lia. apply Hframe1. lia. }
    intros j Hj. destruct (decide (j = i)) as [->|Hne].
    - unfold conflict. rewrite (Hframe i) by lia. rewrite Ec, Er. simpl.
      subst ext1.
      destruct (consumed (getArgAttr symbolFunc i)) eqn:Esc,
        (readOnly (getArgAttr symbolFunc i)) eqn:Esr;
        rewrite ?getArgAttr_setArgAttr; try case_decide; try done;
        simpl; rewrite ?Ec, ?Er; done.
    - destruct (Hrange j) as (H1 & H2 & H3 & H4); [lia|].
      unfold conflict in *. rewrite (Hframe1 j Hne) in *. done. }
  all: destruct (consumed (getArgAttr symbolFunc i)) eqn:Esc,
         (readOnly (getArgAttr symbolFunc i)) eqn:Esr; simpl; try done.
  all: intros Hrest; apply IH in Hrest as (Hshape & Hframe & Hrange).
  all: split; [done|]; split;
         [intros j Hj; apply Hframe; lia|].
  all: intros j Hj; destruct (decide (j = i)) as [->|Hne];
         [|apply Hrange; lia].
  all: unfold conflict; rewrite (Hframe i) by lia;
         rewrite ?Ec, ?Er, ?Esc, ?Esr; done.
Qed.

(** The loop from argument [i] on, when it fails: the argument reported is
    the first of the range on which the declaration lacks an annotation of
    the definition, and the definition is left as the loop over the
    arguments before it has annotated it. *)
Lemma mergeArgAttrs_inl todo i symbolFunc ext k partly :
  mergeArgAttrs todo i symbolFunc ext = inl (k, partly) ->
  i <= k < i + todo
  /\ conflict symbolFunc ext k = true
  /\ (forall j, i <= j < k -> conflict symbolFunc ext j = false)
  /\ mergeArgAttrs (k - i) i symbolFunc ext = inr partly.
Proof.
  revert i ext. induction todo as [|todo IH]; intros i ext; simpl; [done|].
  destruct (consumed (getArgAttr ext i)) eqn:Ec,
    (readOnly (getArgAttr ext i)) eqn:Er; simpl.
  4:{ intros Hrest. apply IH in Hrest as (Hk & Hconflict & Hfirst & Hpartly).
      assert (Hframe : forall j, j ≠ i ->
                 conflict symbolFunc
                   (if consumed (getArgAttr symbolFunc i) then
                      setArgAttr ext i {| consumed := true; readOnly := false |}
                    else if readOnly (getArgAttr symbolFunc i) then
                      setArgAttr ext i {| consumed := false; readOnly := true |}
                    else ext) j
                 = conflict symbolFunc ext j).
      { intros j Hj. unfold conflict.
        repeat case_match; rewrite ?getArgAttr_setArgAttr; try done;
          by case_decide; [lia|]. }
      split; [lia|]. split; [by rewrite <- Hframe by lia|]. split.
      - intros j Hj. destruct (decide (j = i)) as [->|Hne].
        + unfold conflict. by rewrite Ec, Er.
        + rewrite <- Hframe by done. apply Hfirst. lia.
      - replace (k - i) with (S (k - S i)) by lia. simpl.
        rewrite Ec, Er. simpl. exact Hpartly. }
  all: destruct (consumed (getArgAttr symbolFunc i)) eqn:Esc,
         (readOnly (getArgAttr symbolFunc i)) eqn:Esr; simpl.
  all: first
         [ intros [= <- <-]; split; [lia|]; split;
             [unfold conflict; by rewrite Ec, Er, Esc, Esr|];
           split; [intros; lia | by rewrite Nat.sub_diag]
         | intros Hrest;
           apply IH in Hrest as (Hk & Hconflict & Hfirst & Hpartly);
           split; [lia|]; split; [done|]; split;
             [ intros j Hj; destruct (decide (j = i)) as [->|Hne];
                 [unfold conflict; by rewrite Ec, Er, Esc, Esr
                 | apply Hfirst; lia]
             | replace (k - i) with (S (k - S i)) by lia; simpl;
               rewrite Ec, Er, Esc, Esr; simpl; exact Hpartly ] ].
Qed.

(** X11: merging the annotations of a declaration into a definition
    succeeds exactly when on no argument the definition is annotated as
    consuming or as read-only while the declaration is not; otherwise the
    first such argument is reported, and the definition is left with the
    annotations that the merge over the arguments before it gives. *)
Theorem mergeArgAttrs_succeeds_iff n symbolFunc externalSymbolFunc :
  ((exists ext', mergeArgAttrs n 0 symbolFunc externalSymbolFunc = inr ext')
   <-> forall j, j < n -> conflict symbolFunc externalSymbolFunc j = false)
  /\ (forall k partly,
        mergeArgAttrs n 0 symbolFunc externalSymbolFunc = inl (k, partly) ->
        k < n
        /\ conflict symbolFunc externalSymbolFunc k = true
        /\ (forall j, j < k ->
                      conflict symbolFunc externalSymbolFunc j = false)
        /\ mergeArgAttrs k 0 symbolFunc externalSymbolFunc = inr partly).
Proof.
  split.
  - split.
    + intros [ext' Hmerge] j Hj.
      apply mergeArgAttrs_inr in Hmerge as (_ & _ & Hrange).
      apply Hrange. lia.
    + intros Hnone.
      destruct (mergeArgAttrs n 0 symbolFunc externalSymbolFunc)
        as [[k partly]|ext'] eqn:E; [|by eauto].
      apply mergeArgAttrs_inl in E as (Hk & Hconflict & _).
      rewrite Hnone in Hconflict by lia. done.
  - intros k partly Hmerge.
    apply mergeArgAttrs_inl in Hmerge as (Hk & Hconflict & Hfirst & Hpartly).
    rewrite Nat.sub_0_r in Hpartly.
    split; [lia|]. split; [done|]. split; [|done].
    intros j Hj. apply Hfirst. lia.
Qed.

(** X12: when the merge succeeds the definition keeps every annotation
    it had, gains none that the declaration lacks, keeps the attributes of
    the arguments beyond the declaration's, and keeps its name, regions and
    type. *)
Theorem mergeArgAttrs_sound n symbolFunc externalSymbolFunc ext' :
  mergeArgAttrs n 0 symbolFunc externalSymbolFunc = inr ext' ->
  shape ext' = shape externalSymbolFunc
  /\ (forall j, n <= j ->
                getArgAttr ext' j = getArgAttr externalSymbolFunc j)
  /\ (forall j, j < n ->
        (consumed (getArgAttr ext' j) = true ->
         consumed (getArgAttr symbolFunc j) = true)
        /\ (readOnly (getArgAttr ext' j) = true ->
            readOnly (getArgAttr symbolFunc j) = true)
        /\ (consumed (getArgAttr externalSymbolFunc j) = true ->
            consumed (getArgAttr ext' j) = true)
        /\ (readOnly (getArgAttr externalSymbolFunc j) = true ->
            readOnly (getArgAttr ext' j) = true)).
Proof.
  intros (Hshape & Hframe & Hrange)%mergeArgAttrs_inr.
  split; [done|]. split; [intros j Hj; apply Hframe; lia|].
  intros j Hj. destruct (Hrange j) as (_ & Hconflict & Hc & Hr); [lia|].
  unfold conflict in Hconflict.
  apply orb_false_iff in Hconflict as [H1 H2].
  repeat split; try done.
  - intros H. rewrite H in H1. simpl in H1. by apply negb_false_iff in H1.
  - intros H. rewrite H in H2. simpl in H2. by apply negb_false_iff in H2.
Qed.

(** *** The loop over the block *)

(** What the loop does with one operation of the block: it keeps it, it
    returns with an error and the library as annotated so far, or it
    replaces it by a definition of the library. *)
Inductive Action :=
| Keep
| Refuse (error : DefineError) (annotated : ModuleOp)
| Replace (position : nat) (definition : SymbolOp).

Definition action (definitions : ModuleOp) (op : SymbolOp) : Action :=
  match symName op with
  | None => Keep
  | Some name =>
      if hasDefinition op then Keep
      else
        match symbolTableLookup definitions name with
        | None => Keep
        | Some (k, externalSymbol) =>
            if negb (numRegions externalSymbol =? 1)
               || region0Empty externalSymbol then Keep
            else
              match funcType op, funcType externalSymbol with
              | Some symbolType, Some externalType =>
                  if negb (bool_decide (symbolType = externalType)) then
                    Refuse (MismatchingSignature externalType) definitions
                  else
                    match mergeArgAttrs (length (inputs symbolType)) 0
                            op externalSymbol with
                    | inl (i, external') =>
                        Refuse (MismatchingConsumption i)
                          {| getBody :=
                               <[k := external']> (getBody definitions) |}
                    | inr external' => Replace k external'
                    end
              | _, _ => Keep
              end
        end
  end.

Lemma loop_cons op rest seen definitions :
  defineDeclaredSymbols_loop (op :: rest) seen definitions
  = match action definitions op with
    | Keep => defineDeclaredSymbols_loop rest (seen ++ [op]) definitions
    | Refuse error annotated =>
        {| defineResult := failure; defineError := Some error;
           blockAfter := seen ++ op :: rest;
           definitionsAfter := annotated |}
    | Replace k external' =>
        defineDeclaredSymbols_loop rest (seen ++ [external'])
          {| getBody := <[k := external']> (getBody definitions) |}
    end.
Proof.
  unfold action. simpl. repeat case_match; congruence.
Qed.

Lemma lookupFrom_Some k0 ops name k op :
  lookupFrom k0 ops name = Some (k, op) ->
  k0 <= k /\ ops !! (k - k0) = Some op /\ symName op = Some name.
Proof.
  revert k0. induction ops as [|first rest IH]; intros k0; simpl; [done|].
  case_bool_decide as Hname.
  - intros [= <- <-]. rewrite Nat.sub_diag. done.
  - intros (Hle & Hlookup & Hsym)%IH. split; [lia|]. split; [|done].
    replace (k - k0) with (S (k - S k0)) by lia. done.
Qed.

(** The lookup reads the shapes only. *)
Lemma lookupFrom_shape k0 ops1 ops2 name :
  map shape ops1 = map shape ops2 ->
  match lookupFrom k0 ops1 name, lookupFrom k0 ops2 name with
  | Some (k1, op1), Some (k2, op2) => k1 = k2 /\ shape op1 = shape op2
  | None, None => True
  | _, _ => False
  end.
Proof.
  revert k0 ops2. induction ops1 as [|a rest1 IH]; intros k0 [|b rest2];
    simpl; try done.
  intros Heq.
  assert (Hshape : shape a = shape b) by congruence.
  assert (Hrest : map shape rest1 = map shape rest2) by congruence.
  assert (symName a = symName b) as -> by (unfold shape in Hshape; congruence).
  case_bool_decide; [done|]. by apply IH.
Qed.

(** Putting an operation of the same shape in the place of one of the
    library leaves the shape of the library as it is. *)
Lemma insert_shape (ops : list SymbolOp) k ext ext' :
  ops !! k = Some ext ->
  shape ext' = shape ext ->
  map shape (<[k := ext']> ops) = map shape ops.
Proof.
  intros Hlookup Hshape. rewrite list_fmap_insert. apply list_insert_id.
  rewrite list_lookup_fmap, Hlookup. simpl. congruence.
Qed.

(** An error leaves the shape of the library as it is. *)
Lemma action_Refuse definitions op error annotated :
  action definitions op = Refuse error annotated ->
  map shape (getBody annotated) = map shape (getBody definitions).
Proof.
  unfold action. destruct (symName op) as [name|] eqn:Ename; [|done].
  destruct (hasDefinition op); [done|].
  destruct (symbolTableLookup definitions name) as [[k' ext]|] eqn:Elookup;
    [|done].
  destruct (negb (numRegions ext =? 1) || region0Empty ext); [done|].
  destruct (funcType op) as [symbolType|]; [|done].
  destruct (funcType ext) as [externalType|]; [|done].
  destruct (negb (bool_decide (symbolType = externalType)));
    [by intros [= _ <-]|].
  destruct (mergeArgAttrs _ _ _ _) as [[i partly]|ext'] eqn:Emerge; [|done].
  intros [= _ <-]. simpl.
  apply mergeArgAttrs_inl in Emerge as (_ & _ & _ & Hpartly).
  apply mergeArgAttrs_inr in Hpartly as (Hshape & _).
  apply lookupFrom_Some in Elookup as (_ & Hlookup & _).
  rewrite Nat.sub_0_r in Hlookup. by eapply insert_shape.
Qed.

(** A replacement puts a definition of the same name where the library
    has one, and leaves the shape of the library as it is. *)
Lemma action_Replace definitions op k external' :
  action definitions op = Replace k external' ->
  hasDefinition external' = true
  /\ symName external' = symName op
  /\ map shape (<[k := external']> (getBody definitions))
     = map shape (getBody definitions).
Proof.
  unfold action. destruct (symName op) as [name|] eqn:Ename; [|done].
  destruct (hasDefinition op); [done|].
  destruct (symbolTableLookup definitions name) as [[k' ext]|] eqn:Elookup;
    [|done].
  destruct (negb (numRegions ext =? 1) || region0Empty ext) eqn:Ebody;
    [done|].
  destruct (funcType op) as [symbolType|]; [|done].
  destruct (funcType ext) as [externalType|] eqn:Etype; [|done].
  destruct (negb (bool_decide (symbolType = externalType))); [done|].
  destruct (mergeArgAttrs _ _ _ _) as [[i partly]|ext'] eqn:Emerge; [done|].
  intros [= <- <-].
  apply mergeArgAttrs_inr in Emerge as (Hshape & _).
  apply lookupFrom_Some in Elookup as (_ & Hlookup & Hsym).
  rewrite Nat.sub_0_r in Hlookup.
  apply orb_false_iff in Ebody as [Hregions Hempty].
  apply negb_false_iff in Hregions.
  unfold shape in Hshape. injection Hshape as Hs Hn Hr Hf.
  repeat split.
  - unfold hasDefinition. by rewrite Hn, Hr, Hregions, Hempty.
  - congruence.
  - rewrite list_fmap_insert. apply list_insert_id.
    rewrite list_lookup_fmap, Hlookup. simpl. unfold shape. congruence.
Qed.

(** Whether an operation is kept depends on the shapes of the library
    only. *)
Lemma action_Keep_shape definitions1 definitions2 op :
  map shape (getBody definitions1) = map shape (getBody definitions2) ->
  action definitions1 op = Keep -> action definitions2 op = Keep.
Proof.
  intros Hshape. unfold action, symbolTableLookup.
  destruct (symName op) as [name|]; [|done].
  destruct (hasDefinition op); [done|].
  pose proof (lookupFrom_shape 0 _ _ name Hshape) as Hlookup.
  destruct (lookupFrom 0 (getBody definitions1) name) as [[k1 ext1]|],
    (lookupFrom 0 (getBody definitions2) name) as [[k2 ext2]|]; try done.
  destruct Hlookup as [-> Hext]. unfold shape in Hext.
  injection Hext as _ -> -> ->.
  destruct (negb (numRegions ext2 =? 1) || region0Empty ext2); [done|].
  destruct (funcType op), (funcType ext2); try done.
  repeat case_match; done.
Qed.

(** A definition is kept. *)
Lemma action_definition definitions op :
  hasDefinition op = true -> action definitions op = Keep.
Proof. intros H. unfold action. rewrite H. by destruct (symName op). Qed.

(** An operation of the library after the call, against the operation
    before: the same name, regions and type, and every annotation it had. *)
Definition gains (before after : SymbolOp) : Prop :=
  shape after = shape before
  /\ forall j,
       (consumed (getArgAttr before j) = true ->
        consumed (getArgAttr after j) = true)
       /\ (readOnly (getArgAttr before j) = true ->
           readOnly (getArgAttr after j) = true).

Lemma gains_refl op : gains op op.
Proof. by split. Qed.

Lemma gains_trans a b c : gains a b -> gains b c -> gains a c.
Proof.
  intros [Hab Hab'] [Hbc Hbc']. split; [congruence|].
  intros j. destruct (Hab' j), (Hbc' j). auto.
Qed.

Lemma mergeArgAttrs_gains todo i symbolFunc ext ext' :
  mergeArgAttrs todo i symbolFunc ext = inr ext' -> gains ext ext'.
Proof.
  intros (Hshape & Hframe & Hrange)%mergeArgAttrs_inr. split; [done|].
  intros j. destruct (decide (i <= j < i + todo)) as [Hin|Hout].
  - destruct (Hrange j Hin) as (_ & _ & Hc & Hr). done.
  - rewrite Hframe by lia. done.
Qed.

Lemma insert_gains (ops : list SymbolOp) k ext ext' :
  ops !! k = Some ext -> gains ext ext' ->
  Forall2 gains ops (<[k := ext']> ops).
Proof.
  intros Hlookup Hgains.
  rewrite <- (list_insert_id ops k ext Hlookup) at 1.
  apply Forall2_insert; [|done].
  apply Forall_Forall2_diag, Forall_forall. intros. apply gains_refl.
Qed.

(** Whatever the loop does with an operation of the block, the library
    keeps its operations and their annotations. *)
Lemma action_gains definitions op :
  match action definitions op with
  | Keep => True
  | Refuse _ annotated =>
      Forall2 gains (getBody definitions) (getBody annotated)
  | Replace k external' =>
      Forall2 gains (getBody definitions)
        (<[k := external']> (getBody definitions))
  end.
Proof.
  assert (Hsame : Forall2 gains (getBody definitions) (getBody definitions)).
  { apply Forall_Forall2_diag, Forall_forall. intros. apply gains_refl. }
  unfold action. destruct (symName op) as [name|] eqn:Ename; [|done].
  destruct (hasDefinition op); [done|].
  destruct (symbolTableLookup definitions name) as [[k ext]|] eqn:Elookup;
    [|done].
  destruct (negb (numRegions ext =? 1) || region0Empty ext); [done|].
  destruct (funcType op) as [symbolType|]; [|done].
  destruct (funcType ext) as [externalType|]; [|done].
  destruct (negb (bool_decide (symbolType = externalType))); [done|].
  apply lookupFrom_Some in Elookup as (_ & Hlookup & _).
  rewrite Nat.sub_0_r in Hlookup.
  destruct (mergeArgAttrs _ _ _ _) as [[i partly]|ext'] eqn:Emerge; simpl.
  - apply mergeArgAttrs_inl in Emerge as (_ & _ & _ & Hpartly).
    eapply insert_gains; [done|]. by eapply mergeArgAttrs_gains.
  - eapply insert_gains; [done|]. by eapply mergeArgAttrs_gains.
Qed.

(** The library after the loop, whatever its result. *)
Lemma loop_gains rest seen definitions :
  Forall2 gains (getBody definitions)
    (getBody (definitionsAfter
                (defineDeclaredSymbols_loop rest seen definitions))).
Proof.
  revert seen definitions.
  induction rest as [|op rest IH]; intros seen definitions.
  { simpl. apply Forall_Forall2_diag, Forall_forall. intros. apply gains_refl. }
  rewrite loop_cons. pose proof (action_gains definitions op) as Haction.
  destruct (action definitions op) as [|error annotated|k external'].
  - apply IH.
  - done.
  - eapply Forall2_trans; [apply gains_trans | exact Haction |].
    apply (IH (seen ++ [external'])
             {| getBody := <[k := external']> (getBody definitions) |}).
Qed.

(** The loop, whatever its result. *)
Lemma loop_frame rest seen definitions :
  let out := defineDeclaredSymbols_loop rest seen definitions in
  length (blockAfter out) = length seen + length rest
  /\ map shape (getBody (definitionsAfter out))
     = map shape (getBody definitions)
  /\ (defineResult out = success <-> defineError out = None).
Proof.
  revert seen definitions.
  induction rest as [|op rest IH]; intros seen definitions.
  { simpl. rewrite Nat.add_0_r. done. }
  cbv zeta. rewrite loop_cons.
  destruct (action definitions op) as [|error annotated|k external']
    eqn:Eaction.
  - destruct (IH (seen ++ [op]) definitions) as (Hlen & Hshape & Herr).
    rewrite Hlen, length_app. simpl. split; [lia|]. done.
  - simpl. rewrite length_app. simpl. split; [done|]. split; [|done].
    by eapply action_Refuse.
  - destruct (IH (seen ++ [external'])
                {| getBody := <[k := external']> (getBody definitions) |})
      as (Hlen & Hshape & Herr).
    rewrite Hlen, length_app. simpl. split; [lia|]. split; [|done].
    rewrite Hshape. simpl.
    by apply action_Replace in Eaction as (_ & _ & ->).
Qed.

(** The loop when every operation is kept. *)
Lemma loop_all_kept rest seen definitions :
  Forall (fun op => action definitions op = Keep) rest ->
  defineDeclaredSymbols_loop rest seen definitions
  = {| defineResult := success; defineError := None;
       blockAfter := seen ++ rest; definitionsAfter := definitions |}.
Proof.
  revert seen. induction rest as [|op rest IH]; intros seen Hkept.
  { simpl. by rewrite app_nil_r. }
  apply Forall_cons_1 in Hkept as [Hop Hrest].
  rewrite loop_cons, Hop, IH by done. by rewrite <- app_assoc.
Qed.

(** The loop when it succeeds: what it has put after [seen] is kept by a
    second run. *)
Lemma loop_success rest seen definitions :
  let out := defineDeclaredSymbols_loop rest seen definitions in
  defineResult out = success ->
  exists rest',
    blockAfter out = seen ++ rest'
    /\ Forall (fun op => action (definitionsAfter out) op = Keep) rest'.
Proof.
  revert seen definitions.
  induction rest as [|op rest IH]; intros seen definitions.
  { simpl. intros _. exists []. by rewrite app_nil_r. }
  cbv zeta. rewrite loop_cons.
  destruct (action definitions op) as [|error annotated|k external']
    eqn:Eaction.
  - intros Hsuccess.
    destruct (IH (seen ++ [op]) definitions Hsuccess) as (rest' & Hblock & Hkept).
    exists (op :: rest'). rewrite Hblock, <- app_assoc. split; [done|].
    constructor; [|done].
    eapply action_Keep_shape; [|exact Eaction]. symmetry.
    apply (loop_frame rest (seen ++ [op]) definitions).
  - done.
  - intros Hsuccess.
    destruct (IH _ _ Hsuccess) as (rest' & Hblock & Hkept).
    exists (external' :: rest'). rewrite Hblock, <- app_assoc.
    split; [done|]. constructor; [|done].
    apply action_definition.
    by apply action_Replace in Eaction as (? & _).
Qed.

(** A failure comes with its error. *)
Lemma defineDeclaredSymbols_error block definitions :
  defineResult (defineDeclaredSymbols block definitions) = failure ->
  is_Some (defineError (defineDeclaredSymbols block definitions)).
Proof.
  intros Hfailure.
  destruct (loop_frame block [] definitions) as (_ & _ & Herror).
  fold (defineDeclaredSymbols block definitions) in Herror.
  destruct (defineError _); [by eexists|].
  rewrite (proj2 Herror eq_refl) in Hfailure. done.
Qed.

(** X13: [defineDeclaredSymbols] replaces operations one for one: the
    block has as many operations after the call as before, whether the call
    succeeds or fails; the library, which the call annotates in place also
    when it then fails, keeps its operations with their names, regions and
    types, and each of them keeps every annotation it had (annotations of
    arguments are only added); and an error is reported exactly when the
    result is failure. *)
Theorem defineDeclaredSymbols_frame block definitions :
  let out := defineDeclaredSymbols block definitions in
  length (blockAfter out) = length block
  /\ map shape (getBody (definitionsAfter out))
     = map shape (getBody definitions)
  /\ Forall2 gains (getBody definitions) (getBody (definitionsAfter out))
  /\ (defineResult out = success <-> defineError out = None).
Proof.
  destruct (loop_frame block [] definitions) as (Hlength & Hshape & Herror).
  repeat split; try done; try apply Herror.
  apply (loop_gains block [] definitions).
Qed.

(** X14: with a library that defines nothing, or with a block whose
    symbols all have their definition already, [defineDeclaredSymbols]
    succeeds and changes neither the block nor the library. *)
Theorem defineDeclaredSymbols_nothing_to_define block definitions :
  getBody definitions = []
  \/ Forall (fun op => symName op = None \/ hasDefinition op = true) block ->
  defineDeclaredSymbols block definitions
  = {| defineResult := success; defineError := None;
       blockAfter := block; definitionsAfter := definitions |}.
Proof.
  intros H. unfold defineDeclaredSymbols.
  rewrite loop_all_kept; [done|].
  destruct H as [Hempty | Hdefined].
  - apply Forall_forall. intros op _. unfold action, symbolTableLookup.
    rewrite Hempty. simpl. by repeat case_match.
  - eapply Forall_impl; [exact Hdefined|]. simpl.
    intros op [Hnone | Hdef]; [|by apply action_definition].
    unfold action. by rewrite Hnone.
Qed.

(** X15: after a call that succeeded, a second call on the block and the
    library it left changes nothing. *)
Theorem defineDeclaredSymbols_idempotent block definitions :
  let out := defineDeclaredSymbols block definitions in
  defineResult out = success ->
  defineDeclaredSymbols (blockAfter out) (definitionsAfter out)
  = {| defineResult := success; defineError := None;
       blockAfter := blockAfter out;
       definitionsAfter := definitionsAfter out |}.
Proof.
  intros out Hsuccess.
  destruct (loop_success block [] definitions Hsuccess)
    as (rest' & Hblock & Hkept).
  fold (defineDeclaredSymbols block definitions) in Hblock, Hkept.
  fold out in Hblock, Hkept. simpl in Hblock.
  unfold defineDeclaredSymbols at 1. rewrite loop_all_kept; rewrite Hblock; done.
Qed.

End DefineSymbolsFacts.

(** ** [performOptionalDebugActions]: what is printed *)
Module DebugActionsRepro.
Import TransformInterpreterPassBase DebugActionsFacts.

Lemma getAttr_setAttr_eq op name value (ir : IR) :
  is_Some (ir !! op) -> getAttr op name (setAttr op name value ir) = Some value.
Proof.
  intros [d Hd]. unfold getAttr. rewrite lookup_setAttr.
  rewrite decide_True by done. rewrite Hd. simpl. apply lookup_insert_eq.
Qed.

Lemma getAttr_setAttr_ne op j name name' value (ir : IR) :
  op ≠ j -> getAttr j name (setAttr op name' value ir) = getAttr j name ir.
Proof.
  intros Hne. unfold getAttr. rewrite lookup_setAttr.
  by rewrite decide_False by done.
Qed.

Lemma setAttr_is_Some op j name value (ir : IR) :
  is_Some (ir !! j) -> is_Some (setAttr op name value ir !! j).
Proof.
  intros [d Hd]. rewrite lookup_setAttr. case_decide; rewrite Hd; by eexists.
Qed.

(** The tag value that the repro command passes for an option: the
    option's value, or the default when the option is empty. *)
Definition reproTag (option : PassOption) (default : string) : string :=
  if opt_empty option then default else getValue option.

(** X16: on the dump to the debug stream, the IR that is printed goes
    with the repro command that is printed: when no debug transform root tag
    is given, the transform root carries in the printed IR the tag value the
    command passes for it, and so does the target for the payload root tag,
    unless the target is the transform root itself and both tags are
    missing, in which case the payload tag is overwritten by the transform
    tag. *)
Theorem repro_command_matches_printed_tags env (ir : IR) target transform
    passName p t l binaryName :
  dumpStderr env = true ->
  isMultithreadingEnabled env = false ->
  is_Some (ir !! target) ->
  is_Some (ir !! transform) ->
  let out :=
    (performOptionalDebugActions env ir target transform passName p t l
       binaryName).2 in
  let payloadTag := reproTag p kTransformDialectTagPayloadRootValue in
  let transformTag := reproTag t kTransformDialectTagTransformContainerValue in
  exists printed rootOpName libraryOption,
    DbgReproCall rootOpName passName (getArgStr p) payloadTag
                 (getArgStr t) transformTag libraryOption binaryName
      ∈ dbgs out
    /\ DbgPrintOp (getRootOperation ir target) printed ∈ dbgs out
    /\ (opt_empty t = true ->
        getAttr transform tag printed = Some (StringAttr transformTag))
    /\ (opt_empty p = true ->
        target ≠ transform \/ opt_empty t = false ->
        getAttr target tag printed = Some (StringAttr payloadTag))
    /\ (opt_empty p = true -> opt_empty t = true -> target = transform ->
        getAttr target tag printed = Some (StringAttr transformTag)).
Proof.
  intros Hdump Hthreads Htarget Htransform out payloadTag transformTag.
  subst out. unfold performOptionalDebugActions.
  rewrite Hdump, Hthreads. simpl.
  set (ir1 := if opt_empty p then setAttr target tag _ ir else ir).
  set (ir2 := if opt_empty t then setAttr transform tag _ ir1 else ir1).
  assert (Htransform1 : is_Some (ir1 !! transform)).
  { subst ir1. destruct (opt_empty p); [by apply setAttr_is_Some | done]. }
  exists ir2. eexists. eexists. split; [|split; [|split; [|split]]].
  - unfold printReproCall. do 2 apply list_elem_of_further.
    apply list_elem_of_here.
  - unfold printReproCall, printModuleForRepro.
    do 3 apply list_elem_of_further. apply list_elem_of_here.
  - intros Ht. subst ir2 transformTag. unfold reproTag. rewrite Ht.
    by apply getAttr_setAttr_eq.
  - intros Hp Hdistinct. subst ir2 ir1 payloadTag. unfold reproTag.
    rewrite Hp. destruct (opt_empty t) eqn:Ht.
    + destruct Hdistinct as [Hne|]; [|done].
      rewrite getAttr_setAttr_ne by done. by apply getAttr_setAttr_eq.
    + by apply getAttr_setAttr_eq.
  - intros Hp Ht <-. subst ir2 transformTag. unfold reproTag. rewrite Ht.
    by apply getAttr_setAttr_eq.
Qed.

(** X16 on [cleanIR]: the module is printed with the payload tag that the
    command names. *)
Lemma repro_command_matches_printed_tags_witness :
  exists printed rootOpName libraryOption,
    DbgReproCall rootOpName "test-transform-dialect-interpreter"
      "debug-payload-root-tag" "payload_root"
      "debug-transform-root-tag" "transform_container" libraryOption
      "mlir-opt"
      ∈ dbgs (performOptionalDebugActions dumpToStderr cleanIR 0 1
                "test-transform-dialect-interpreter" noPayloadTag
                noTransformTag noLibrary "mlir-opt").2
    /\ DbgPrintOp (getRootOperation cleanIR 0) printed
         ∈ dbgs (performOptionalDebugActions dumpToStderr cleanIR 0 1
                   "test-transform-dialect-interpreter" noPayloadTag
                   noTransformTag noLibrary "mlir-opt").2
    /\ (opt_empty noTransformTag = true ->
        getAttr 1 tag printed = Some (StringAttr "transform_container"))
    /\ (opt_empty noPayloadTag = true ->
        0 ≠ 1 \/ opt_empty noTransformTag = false ->
        getAttr 0 tag printed = Some (StringAttr "payload_root"))
    /\ (opt_empty noPayloadTag = true -> opt_empty noTransformTag = true ->
        0 = 1 ->
        getAttr 0 tag printed = Some (StringAttr "transform_container")).
Proof.
  refine (repro_command_matches_printed_tags dumpToStderr cleanIR 0 1
            "test-transform-dialect-interpreter" noPayloadTag noTransformTag
            noLibrary "mlir-opt" eq_refl eq_refl _ _).
  - vm_compute. eexists. reflexivity.
  - vm_compute. eexists. reflexivity.
Defined.

End DebugActionsRepro.

(** ** [interpreterBaseInitializeImpl] *)
Module InitializeImplFacts.
Import TransformInterpreterPassBase TransformInterpreterInit.

Section Initialize.

Variable parseSourceString : string -> option ModuleOp.
Variable verify : ModuleOp -> LogicalResult.
Variable MemoryBuffer : Type.
Variable openInputFile : string -> option MemoryBuffer.
Variable parseSourceFile : MemoryBuffer -> option ModuleOp.

(** Reading a module from the file of that name: the diagnostics, the
    result and the module. *)
#[local] Abbreviation readModule name :=
  (parseTransformModuleFromFile MemoryBuffer openInputFile parseSourceFile
     name None).

(** X17: parsing overrides generation: when the transform file parses to
    a module, the initialisation does not depend on the module builder. *)
Theorem parsing_overrides_builder builder1 builder2 transformFileName
    transformLibraryFileName module libraryModule parsed :
  (readModule transformFileName).2 = Some parsed ->
  interpreterBaseInitializeImpl verify MemoryBuffer openInputFile
    parseSourceFile builder1 transformFileName transformLibraryFileName
    module libraryModule
  = interpreterBaseInitializeImpl verify MemoryBuffer openInputFile
    parseSourceFile builder2 transformFileName transformLibraryFileName
      module libraryModule.
Proof.
  unfold interpreterBaseInitializeImpl.
  destruct (readModule transformFileName) as [[diags1 result1] parsed1].
  simpl. intros ->. done.
Qed.

(** X18: without a module builder, [interpreterBaseInitializeImpl] on a
    transform file and [interpreterBaseInitializeImplModified] on a
    transform string come to the same state whenever the file is read
    without a diagnostic and parses to what the string parses to. *)
Theorem initializers_agree text transformFileName transformLibraryFileName
    module libraryModule :
  readModule transformFileName
  = ([], success, parseSourceString text) ->
  interpreterBaseInitializeImpl verify MemoryBuffer openInputFile
    parseSourceFile None transformFileName transformLibraryFileName
    module libraryModule
  = interpreterBaseInitializeImplModified parseSourceString verify
      MemoryBuffer openInputFile parseSourceFile text
      transformLibraryFileName module libraryModule.
Proof.
  intros Hparsed.
  unfold interpreterBaseInitializeImpl, interpreterBaseInitializeImplModified.
  rewrite Hparsed. simpl.
  destruct (parseSourceString text) as [m|]; simpl.
  - destruct (failed (verify m)); [done|].
    destruct (readModule transformLibraryFileName)
      as [[diags2 result2] parsedLibrary].
    destruct (failed result2); [done|].
    destruct parsedLibrary as [library|]; [|done].
    by destruct (failed (verify library)).
  - destruct (readModule transformLibraryFileName)
      as [[diags2 result2] parsedLibrary].
    destruct (failed result2); [done|].
    destruct parsedLibrary as [library|]; [|done].
    by destruct (failed (verify library)).
Qed.

(** X19: [interpreterBaseInitializeImpl] returns failure only when the
    transform file or the library file cannot be opened, when a module
    parsed from one of them fails verification, when the module builder
    reports failure, or when the definitions of the library cannot be merged
    into the transform module; the two shared modules are then as they
    were, except in the last case. *)
Theorem initializeImpl_failure_causes builder transformFileName
    transformLibraryFileName module libraryModule :
  let out :=
    interpreterBaseInitializeImpl verify MemoryBuffer openInputFile
      parseSourceFile builder transformFileName transformLibraryFileName
      module libraryModule in
  initResult out = failure ->
  (((readModule transformFileName).1.2 = failure
    \/ (exists m, (readModule transformFileName).2 = Some m
                  /\ verify m = failure)
    \/ (readModule transformLibraryFileName).1.2 = failure
    \/ (exists l, (readModule transformLibraryFileName).2 = Some l
                  /\ verify l = failure)
    \/ (exists build localModule,
          builder = Some build
          /\ build {| getBody := [] |} = (Some failure, localModule)))
   /\ moduleAfter out = module
   /\ libraryModuleAfter out = libraryModule)
  \/ is_Some (initDefineError out).
Proof.
  intros out. subst out. unfold interpreterBaseInitializeImpl.
  destruct (readModule transformFileName) as [[diags1 result1] parsed].
  destruct (readModule transformLibraryFileName)
    as [[diags2 result2] parsedLibrary].
  simpl.
  destruct result1; simpl; [|by intros _; left; auto].
  destruct parsed as [m|]; simpl.
  - destruct (verify m) eqn:Hm; simpl; [|by intros _; left; eauto 10].
    destruct result2; simpl; [|by intros _; left; auto 10].
    destruct parsedLibrary as [library|]; [|done].
    destruct (verify library) eqn:Hl; simpl; [|by intros _; left; eauto 10].
    intros Hfailure. right. by apply DefineSymbolsFacts.defineDeclaredSymbols_error.
  - destruct result2; simpl; [|by intros _; left; auto 10].
    destruct parsedLibrary as [library|]; simpl.
    + destruct (verify library) eqn:Hl; simpl; [|by intros _; left; eauto 10].
      destruct builder as [build|]; simpl.
      * destruct (build {| getBody := [] |}) as [[[|]|] localModule] eqn:Ebuild;
          simpl.
        -- intros Hfailure. right.
           by apply DefineSymbolsFacts.defineDeclaredSymbols_error.
        -- intros _. left. split; [|done]. do 4 right. eauto.
        -- destruct module as [[m|]|]; try done. simpl.
           intros Hfailure. right.
           by apply DefineSymbolsFacts.defineDeclaredSymbols_error.
      * destruct module as [[m|]|]; try done. simpl.
        intros Hfailure. right.
        by apply DefineSymbolsFacts.defineDeclaredSymbols_error.
    + destruct builder as [build|]; simpl; [|done].
      destruct (build {| getBody := [] |}) as [[[|]|] localModule] eqn:Ebuild;
        simpl; try done.
      intros _. left. split; [|done]. do 4 right. eauto.
Qed.

(** X20: a library file that can be opened but whose text does not parse
    is passed over in silence: [interpreterBaseInitializeImplModified] ends
    in the state it ends in when no library file is named. *)
Theorem unparsed_library_ignored text transformLibraryFileName module
    libraryModule buffer :
  openInputFile transformLibraryFileName = Some buffer ->
  parseSourceFile buffer = None ->
  interpreterBaseInitializeImplModified parseSourceString verify
    MemoryBuffer openInputFile parseSourceFile text
    transformLibraryFileName module libraryModule
  = interpreterBaseInitializeImplModified parseSourceString verify
      MemoryBuffer openInputFile parseSourceFile text "" module
      libraryModule.
Proof.
  intros Hopen Hparse.
  unfold interpreterBaseInitializeImplModified, parseTransformModuleFromFile.
  rewrite Hopen, Hparse. simpl.
  by destruct (str_empty transformLibraryFileName).
Qed.

End Initialize.

End InitializeImplFacts.

(** ** The initialisation and the symbols, run *)
Module InitializeExamples.
Import TransformInterpreterPassBase TransformInterpreterInit.
Import DefineSymbolsFacts InitializeImplFacts InitializeFacts.

(** The declaration of [@tile] and its definition in the library. *)
Definition tileDeclaration : SymbolOp :=
  {| symName := Some "tile"; numRegions := 1; region0Empty := true;
     funcType := Some {| inputs := [anyOp]; outputs := [] |};
     argAttrs := [ {| consumed := false; readOnly := true |} ] |}.

Definition tileDefinition : SymbolOp :=
  {| symName := Some "tile"; numRegions := 1; region0Empty := false;
     funcType := Some {| inputs := [anyOp]; outputs := [] |};
     argAttrs := [] |}.

Definition tileDefinitionReadOnly : SymbolOp :=
  {| symName := Some "tile"; numRegions := 1; region0Empty := false;
     funcType := Some {| inputs := [anyOp]; outputs := [] |};
     argAttrs := [ {| consumed := false; readOnly := true |} ] |}.

(** The file system of [openFile] with one more file, which holds the
    module that declares [@tile]. *)
Definition openSchedule (name : string) : option ModuleOp :=
  if bool_decide (name = "schedule.mlir") then Some declaresTile
  else openFile name.

(** A builder that reports failure, and one that builds a module with one
    operation. *)
Definition failingBuilder (m : ModuleOp) : option LogicalResult * ModuleOp :=
  (Some failure, m).

Definition sequenceBuilder (m : ModuleOp) : option LogicalResult * ModuleOp :=
  (Some success,
   {| getBody := getBody m ++
                 [ {| symName := None; numRegions := 1; region0Empty := false;
                      funcType := None; argAttrs := [] |} ] |}).

Definition initializeFromFile builder :=
  interpreterBaseInitializeImpl verifyAll ModuleOp openSchedule parseFile
    builder.

(** X12 on [@tile]: the definition takes over the read-only annotation of
    the declaration. *)
Lemma mergeArgAttrs_sound_witness :
  shape tileDefinitionReadOnly = shape tileDefinition
  /\ (forall j, 1 <= j ->
        getArgAttr tileDefinitionReadOnly j = getArgAttr tileDefinition j)
  /\ (forall j, j < 1 ->
        (consumed (getArgAttr tileDefinitionReadOnly j) = true ->
         consumed (getArgAttr tileDeclaration j) = true)
        /\ (readOnly (getArgAttr tileDefinitionReadOnly j) = true ->
            readOnly (getArgAttr tileDeclaration j) = true)
        /\ (consumed (getArgAttr tileDefinition j) = true ->
            consumed (getArgAttr tileDefinitionReadOnly j) = true)
        /\ (readOnly (getArgAttr tileDefinition j) = true ->
            readOnly (getArgAttr tileDefinitionReadOnly j) = true)).
Proof.
  exact (mergeArgAttrs_sound 1 tileDeclaration tileDefinition
           tileDefinitionReadOnly eq_refl).
Defined.

(** A declaration of [@fuse] that consumes its first argument, and a
    library whose definition consumes the second one only. *)
Definition fuseDeclaration : SymbolOp :=
  {| symName := Some "fuse"; numRegions := 1; region0Empty := true;
     funcType := Some {| inputs := [anyOp; anyOp]; outputs := [] |};
     argAttrs := [ {| consumed := true; readOnly := false |} ] |}.

Definition fuseDefinition (annotations : list ArgAttrs) : SymbolOp :=
  {| symName := Some "fuse"; numRegions := 1; region0Empty := false;
     funcType := Some {| inputs := [anyOp; anyOp]; outputs := [] |};
     argAttrs := annotations |}.

(** The call fails on the second argument, the block is as it was, and the
    definition in the library has gained the annotation of the first
    argument. *)
Example define_failure_keeps_annotations :
  defineDeclaredSymbols [fuseDeclaration]
    {| getBody :=
         [ tileDefinition;
           fuseDefinition [ noArgAttrs;
                            {| consumed := true; readOnly := false |} ] ] |}
  = {| defineResult := failure;
       defineError := Some (MismatchingConsumption 1);
       blockAfter := [fuseDeclaration];
       definitionsAfter :=
         {| getBody :=
              [ tileDefinition;
                fuseDefinition [ {| consumed := true; readOnly := false |};
                                 {| consumed := true; readOnly := false |} ]
              ] |} |}.
Proof. reflexivity. Qed.

(** X14 on a block that holds the definition already. *)
Lemma defineDeclaredSymbols_nothing_to_define_witness :
  defineDeclaredSymbols [tileDefinition] definesTileBinary
  = {| defineResult := success; defineError := None;
       blockAfter := [tileDefinition];
       definitionsAfter := definesTileBinary |}.
Proof.
  apply defineDeclaredSymbols_nothing_to_define.
  right. constructor; [right; reflexivity | constructor].
Defined.

(** X15 on [@tile]: the second call. *)
Lemma defineDeclaredSymbols_idempotent_witness :
  defineDeclaredSymbols [tileDefinitionReadOnly]
    {| getBody := [tileDefinitionReadOnly] |}
  = {| defineResult := success; defineError := None;
       blockAfter := [tileDefinitionReadOnly];
       definitionsAfter := {| getBody := [tileDefinitionReadOnly] |} |}.
Proof.
  exact (defineDeclaredSymbols_idempotent (getBody declaresTile) definesTile
           eq_refl).
Defined.

(** X17 on ["schedule.mlir"]: the builder that would fail is not asked. *)
Lemma parsing_overrides_builder_witness :
  initializeFromFile (Some failingBuilder) "schedule.mlir" "" None None
  = initializeFromFile None "schedule.mlir" "" None None.
Proof.
  exact (parsing_overrides_builder verifyAll ModuleOp openSchedule parseFile
           (Some failingBuilder) None "schedule.mlir" "" None None
           declaresTile eq_refl).
Defined.

(** X18 on ["schedule.mlir"] and the text that parses to the same
    module, with the library that defines [@tile]. *)
Lemma initializers_agree_witness :
  initializeFromFile None "schedule.mlir" "unary.mlir" None None
  = interpreterBaseInitializeImplModified parseString verifyAll ModuleOp
      openSchedule parseFile "module { transform.named_sequence @tile }"
      "unary.mlir" None None.
Proof.
  exact (initializers_agree parseString verifyAll ModuleOp openSchedule
           parseFile "module { transform.named_sequence @tile }"
           "schedule.mlir" "unary.mlir" None None eq_refl).
Defined.

(** X19 without a transform file and with the builder that fails: the
    failure is the builder's, and the shared modules stay unset. *)
Lemma initializeImpl_failure_causes_witness :
  ((parseTransformModuleFromFile ModuleOp openSchedule parseFile "" None).1.2
     = failure
   \/ (exists m,
         (parseTransformModuleFromFile ModuleOp openSchedule parseFile
            "" None).2 = Some m
         /\ verifyAll m = failure)
   \/ (parseTransformModuleFromFile ModuleOp openSchedule parseFile
         "" None).1.2 = failure
   \/ (exists l,
         (parseTransformModuleFromFile ModuleOp openSchedule parseFile
            "" None).2 = Some l
         /\ verifyAll l = failure)
   \/ (exists build localModule,
         Some failingBuilder = Some build
         /\ build {| getBody := [] |} = (Some failure, localModule)))
  /\ moduleAfter (initializeFromFile (Some failingBuilder) "" "" None None)
     = None
  /\ libraryModuleAfter
       (initializeFromFile (Some failingBuilder) "" "" None None) = None
  \/ is_Some (initDefineError
                (initializeFromFile (Some failingBuilder) "" "" None None)).
Proof.
  exact (initializeImpl_failure_causes verifyAll ModuleOp openSchedule
           parseFile (Some failingBuilder) "" "" None None eq_refl).
Defined.

(** Without a transform file a builder that succeeds provides the
    transform module, and a library is merged into it. *)
Example initialize_built :
  moduleAfter (initializeFromFile (Some sequenceBuilder) "" "unary.mlir"
                 None None)
  = Some (Some {| getBody :=
                    [ {| symName := None; numRegions := 1;
                         region0Empty := false; funcType := None;
                         argAttrs := [] |} ] |}).
Proof. reflexivity. Qed.

(** A transform file that cannot be opened fails the initialisation from a
    file. *)
Example initialize_file_missing :
  initializeFromFile None "absent.mlir" "" None None
  = {| initResult := failure; initDiagnostics := [errFailedToParse];
       initDefineError := None;
       moduleAfter := None; libraryModuleAfter := None |}.
Proof. reflexivity. Qed.

(** A parser that rejects every library file. *)
Definition parseNothing (buffer : ModuleOp) : option ModuleOp := None.

(** X20 on ["unary.mlir"] read by [parseNothing]. *)
Lemma unparsed_library_ignored_witness :
  interpreterBaseInitializeImplModified parseString verifyAll ModuleOp
    openSchedule parseNothing "module { transform.named_sequence @tile }"
    "unary.mlir" None None
  = interpreterBaseInitializeImplModified parseString verifyAll ModuleOp
      openSchedule parseNothing "module { transform.named_sequence @tile }"
      "" None None.
Proof.
  exact (unparsed_library_ignored parseString verifyAll ModuleOp openSchedule
           parseNothing "module { transform.named_sequence @tile }"
           "unary.mlir" None None definesTile eq_refl eq_refl).
Defined.

End InitializeExamples.
